(** * OpenStack load-balancer task (upup/pkg/fi/cloudup/openstacktasks/lb.go)

    A shallow embedding of the [LB] task: discovery ([Find]), change
    validation ([CheckChanges]), convergence ([RenderOpenstack]) and the
    provisioning-status poller ([waitLoadbalancerActiveProvisioningStatus]).

    Remote calls are modelled as handlers over an abstract world [W]; every
    call issued by the task is appended to a trace, so that statements such
    as "exactly one port update is issued" are statements about the trace.
    Go pointers to strings are [option string]; a receiver mutated in place
    is returned next to the function's result. *)

From Stdlib Require Import ZArith List String Ascii Bool Lia.
From Stdlib Require Import Floats Uint63 DecimalString.
From Stdlib Require Import Permutation.
Import ListNotations.

Open Scope string_scope.
Open Scope Z_scope.

(** ** Values and pointers *)

(** [fi.ValueOf]: the pointee, or the zero value for a nil pointer. *)
Definition ValueOf (p : option string) : string :=
  match p with
  | Some v => v
  | None => ""
  end.

(** [fi.PtrTo]: a fresh pointer to the value. *)
Definition PtrTo (v : string) : option string := Some v.

(** [fi.Lifecycle] is a string type. *)
Definition Lifecycle := string.

(** The fields of the [SecurityGroup] task that this file reads or sets;
    the task type itself is declared in securitygroup.go. *)
Record SecurityGroup := mkSecurityGroup {
  sgID : option string;
  sgName : option string
}.

(** The [LB] task. *)
Record LB := mkLB {
  ID : option string;
  Name : option string;
  Subnet : option string;
  VipSubnet : option string;
  lbLifecycle : Lifecycle;
  PortID : option string;
  lbSecurityGroup : option SecurityGroup;
  Provider : option string;
  FlavorID : option string
}.

(** ** Remote records (gophercloud) *)

Module loadbalancers.
Record LoadBalancer := mkLoadBalancer {
  ID : string;
  Name : string;
  VipPortID : string;
  VipSubnetID : string;
  Provider : string;
  FlavorID : string;
  ProvisioningStatus : string
}.

Record CreateOpts := mkCreateOpts {
  optName : string;
  optVipSubnetID : string;
  optFlavorID : string
}.
End loadbalancers.

Module subnets.
Record Subnet := mkSubnet {
  ID : string;
  Name : string
}.
End subnets.

Module ports.
Record Port := mkPort {
  ID : string;
  SecurityGroups : list string
}.
End ports.

(** ** Errors *)

Inductive error :=
| ErrWaitTimeout                      (* wait.ErrWaitTimeout *)
| Errorf (msg : string)               (* fmt.Errorf, by its text *)
| RequiredField (key : string)        (* fi.RequiredField *)
| CannotChangeField (key : string)    (* fi.CannotChangeField *)
| RemoteError (msg : string).         (* an error of the provider or SDK *)

(** A Go [(value, error)] pair. *)
Inductive result (E T : Type) :=
| Ok (v : T)
| Fail (e : E).
Arguments Ok {E T} v.
Arguments Fail {E T} e.

(** A listing as returned by [AllPages]; [ExtractLoadBalancers] either
    decodes it or fails. *)
Inductive Page :=
| PageOk (lbs : list loadbalancers.LoadBalancer)
| PageBad (msg : string).

Definition ExtractLoadBalancers (p : Page)
  : result string (list loadbalancers.LoadBalancer) :=
  match p with
  | PageOk lbs => Ok lbs
  | PageBad msg => Fail msg
  end.

(** ** Trace of remote calls *)

Inductive Event :=
| EListLoadBalancers (name : string)
| EGetSubnet (id : string)
| EGetSecurityGroupByName (name : option string)
| EListSubnets (name : string)
| ECreateLB (opts : loadbalancers.CreateOpts)
| EGetPort (id : string)
| EUpdatePort (id : string) (securityGroups : list string)
| EGetLoadBalancer (id : string)
| ESleep (nanoseconds : Z).

(** Events that change remote state. *)
Definition is_mutation (ev : Event) : bool :=
  match ev with
  | ECreateLB _ | EUpdatePort _ _ => true
  | _ => false
  end.

Definition is_create (ev : Event) : bool :=
  match ev with
  | ECreateLB _ => true
  | _ => false
  end.

Definition is_port_update (ev : Event) : bool :=
  match ev with
  | EUpdatePort _ _ => true
  | _ => false
  end.

Definition is_status_fetch (ev : Event) : bool :=
  match ev with
  | EGetLoadBalancer _ => true
  | _ => false
  end.

Definition sleep_of (ev : Event) : Z :=
  match ev with
  | ESleep d => d
  | _ => 0
  end.

Definition count (p : Event -> bool) (tr : list Event) : nat :=
  List.length (filter p tr).

Definition total_sleep (tr : list Event) : Z :=
  fold_right (fun ev acc => sleep_of ev + acc) 0 tr.

(** ** The cloud and the monad of remote calls *)

Section Cloud.

Variable W : Type.

(** The provider boundary. Each handler returns its answer and the next
    world; a failure carries the text of the provider's error.
    [getSecurityGroupByName] is the helper of securitygroup.go and returns
    an [error] of its own. *)
Record OpenstackCloud := mkCloud {
  ListLoadBalancers : string -> W -> result string Page * W;
  GetSubnet : string -> W -> result string subnets.Subnet * W;
  getSecurityGroupByName :
    SecurityGroup -> W -> result error (option SecurityGroup) * W;
  ListSubnets : string -> W -> result string (list subnets.Subnet) * W;
  CreateLB :
    loadbalancers.CreateOpts -> W -> result string loadbalancers.LoadBalancer * W;
  GetPort : string -> W -> result string ports.Port * W;
  UpdatePort : string -> list string -> W -> result string ports.Port * W;
  GetLoadBalancer : string -> W -> result string loadbalancers.LoadBalancer * W
}.

Record St := mkSt {
  world : W;
  trace : list Event
}.

Definition M (A : Type) : Type := St -> A * St.

Definition ret {A} (a : A) : M A := fun s => (a, s).

Definition bind {A B} (m : M A) (k : A -> M B) : M B :=
  fun s => let (a, s') := m s in k a s'.

(** Issue one remote call: log it, run the handler. *)
Definition call {A} (ev : Event) (h : W -> A * W) : M A :=
  fun s =>
    let (a, w') := h (world s) in
    (a, mkSt w' (trace s ++ [ev])).

Definition sleep (d : Z) : M unit :=
  fun s => (tt, mkSt (world s) (trace s ++ [ESleep d])).

End Cloud.

Arguments mkCloud {W}.
Arguments ListLoadBalancers {W}.
Arguments GetSubnet {W}.
Arguments getSecurityGroupByName {W}.
Arguments ListSubnets {W}.
Arguments CreateLB {W}.
Arguments GetPort {W}.
Arguments UpdatePort {W}.
Arguments GetLoadBalancer {W}.
Arguments mkSt {W}.
Arguments world {W}.
Arguments trace {W}.
Arguments ret {W A}.
Arguments bind {W A B}.
Arguments call {W A}.
Arguments sleep {W}.

Notation "x <- m ;; k" := (bind m (fun x => k))
  (at level 61, m at next level, right associativity).

(** ** Formatting *)

(** The [%d] verb on a length. *)
Definition fmt_d (n : nat) : string := NilEmpty.string_of_uint (Nat.to_uint n).

(** ** Discovery *)

Section Tasks.

Context {W : Type}.
Variable cloud : OpenstackCloud W.

(** [NewLBTaskFromCloud]; the second component is [find] after the call. *)
Definition NewLBTaskFromCloud (lifecycle : Lifecycle)
    (lb : loadbalancers.LoadBalancer) (find : option LB)
  : M W (result error LB * option LB) :=
  r <- call (EGetSubnet (loadbalancers.VipSubnetID lb))
            (fun w =>
               match GetSubnet cloud (loadbalancers.VipSubnetID lb) w with
               | (Ok sub, w') => (Ok sub, w')
               | (Fail msg, w') => (Fail (RemoteError msg), w')
               end) ;;
  match r with
  | Fail err => ret (Fail err, find)
  | Ok sub =>
      let secGroup :=
        match find with
        | Some f =>
            match lbSecurityGroup f with
            | None => false
            | Some _ => true
            end
        | None => true
        end in
      let actual :=
        {| ID := PtrTo (loadbalancers.ID lb);
           Name := PtrTo (loadbalancers.Name lb);
           Subnet := PtrTo (subnets.Name sub);
           VipSubnet := PtrTo (loadbalancers.VipSubnetID lb);
           lbLifecycle := lifecycle;
           PortID := PtrTo (loadbalancers.VipPortID lb);
           lbSecurityGroup := None;
           Provider := PtrTo (loadbalancers.Provider lb);
           FlavorID := PtrTo (loadbalancers.FlavorID lb) |} in
      let back (act : LB) : option LB :=
        match find with
        | Some f =>
            Some {| ID := ID act;
                    Name := Name f;
                    Subnet := Subnet f;
                    VipSubnet := VipSubnet act;
                    lbLifecycle := lbLifecycle f;
                    PortID := PortID act;
                    lbSecurityGroup := lbSecurityGroup f;
                    Provider := Provider act;
                    FlavorID := FlavorID act |}
        | None => None
        end in
      if secGroup then
        let arg := {| sgID := None; sgName := PtrTo (loadbalancers.Name lb) |} in
        g <- call (EGetSecurityGroupByName (sgName arg))
                  (getSecurityGroupByName cloud arg) ;;
        match g with
        | Fail err => ret (Fail err, find)
        | Ok sg =>
            let actual' :=
              {| ID := ID actual;
                 Name := Name actual;
                 Subnet := Subnet actual;
                 VipSubnet := VipSubnet actual;
                 lbLifecycle := lbLifecycle actual;
                 PortID := PortID actual;
                 lbSecurityGroup := sg;
                 Provider := Provider actual;
                 FlavorID := FlavorID actual |} in
            ret (Ok actual', back actual')
        end
      else ret (Ok actual, back actual)
  end.

(** [Find] on an [LB] receiver; the second component is the receiver after the call. *)
Definition Find (s : LB) : M W (result error (option LB) * LB) :=
  match Name s with
  | None => ret (Ok None, s)
  | Some _ =>
      p <- call (EListLoadBalancers (ValueOf (Name s)))
                (ListLoadBalancers cloud (ValueOf (Name s))) ;;
      match p with
      | Fail err =>
          ret (Fail (Errorf ("Failed to retrieve loadbalancers for name "
                               ++ ValueOf (Name s) ++ ": " ++ err)), s)
      | Ok lbPage =>
          match ExtractLoadBalancers lbPage with
          | Fail err =>
              ret (Fail (Errorf ("Failed to extract loadbalancers : " ++ err)), s)
          | Ok lbs =>
              match lbs with
              | [] => ret (Ok None, s)                       (* len(lbs) == 0 *)
              | _ :: _ :: _ =>                               (* len(lbs) > 1 *)
                  ret (Fail (Errorf ("Multiple load balancers for name "
                                       ++ ValueOf (Name s))), s)
              | [lb] =>
                  r <- NewLBTaskFromCloud (lbLifecycle s) lb (Some s) ;;
                  match r with
                  | (Ok actual, Some s') => ret (Ok (Some actual), s')
                  | (Ok actual, None) => ret (Ok (Some actual), s)
                  | (Fail err, Some s') => ret (Fail err, s')
                  | (Fail err, None) => ret (Fail err, s)
                  end
              end
          end
      end
  end.

(** ** Change validation *)

(** [CheckChanges]: [nil] is [None]. *)
Definition CheckChanges (a : option LB) (e changes : LB) : option error :=
  match a with
  | None =>
      match Name e with
      | None => Some (RequiredField "Name")
      | Some _ => None
      end
  | Some _ =>
      match ID changes with
      | Some _ => Some (CannotChangeField "ID")
      | None =>
          match Name changes with
          | Some _ => Some (CannotChangeField "Name")
          | None => None
          end
      end
  end.

(** ** Convergence *)

(** The condition of the repair path:
    [len(port.SecurityGroups) < 1 || port.SecurityGroups[0] != id]. *)
Definition port_needs_repair (port : ports.Port) (id : string) : bool :=
  match ports.SecurityGroups port with
  | [] => true
  | g :: _ => negb (String.eqb g id)
  end.

(** [RenderOpenstack]; the second component is [e] after the call. *)
Definition RenderOpenstack (a : option LB) (e changes : LB)
  : M W (option error * LB) :=
  match a with
  | None =>
      r <- call (EListSubnets (ValueOf (Subnet e)))
                (ListSubnets cloud (ValueOf (Subnet e))) ;;
      match r with
      | Fail err =>
          ret (Some (Errorf ("Failed to retrieve subnet `" ++ ValueOf (Subnet e)
                               ++ "` in loadbalancer creation: " ++ err)), e)
      | Ok subs =>
          match subs with
          | [sub] =>
              let lbopts :=
                {| loadbalancers.optName := ValueOf (Name e);
                   loadbalancers.optVipSubnetID := subnets.ID sub;
                   loadbalancers.optFlavorID :=
                     match FlavorID e with
                     | Some f => f
                     | None => ""
                     end |} in
              c <- call (ECreateLB lbopts) (CreateLB cloud lbopts) ;;
              match c with
              | Fail err => ret (Some (Errorf ("error creating LB: " ++ err)), e)
              | Ok lb =>
                  let e' :=
                    {| ID := PtrTo (loadbalancers.ID lb);
                       Name := Name e;
                       Subnet := Subnet e;
                       VipSubnet := PtrTo (loadbalancers.VipSubnetID lb);
                       lbLifecycle := lbLifecycle e;
                       PortID := PtrTo (loadbalancers.VipPortID lb);
                       lbSecurityGroup := lbSecurityGroup e;
                       Provider := PtrTo (loadbalancers.Provider lb);
                       FlavorID := PtrTo (loadbalancers.FlavorID lb) |} in
                  match lbSecurityGroup e' with
                  | Some sg =>
                      u <- call (EUpdatePort (loadbalancers.VipPortID lb)
                                             [ValueOf (sgID sg)])
                                (UpdatePort cloud (loadbalancers.VipPortID lb)
                                            [ValueOf (sgID sg)]) ;;
                      match u with
                      | Fail err =>
                          ret (Some (Errorf ("Failed to update security group for port "
                                               ++ loadbalancers.VipPortID lb
                                               ++ ": " ++ err)), e')
                      | Ok _ => ret (None, e')
                      end
                  | None => ret (None, e')
                  end
              end
          | _ =>                                             (* len(subnets) != 1 *)
              ret (Some (Errorf ("Unexpected desired subnets for `"
                                   ++ ValueOf (Subnet e) ++ "`.  Expected 1, got "
                                   ++ fmt_d (List.length subs))), e)
          end
      end
  | Some act =>
      (* We may have failed to update the security groups on the load balancer *)
      p <- call (EGetPort (ValueOf (PortID act)))
                (GetPort cloud (ValueOf (PortID act))) ;;
      match p with
      | Fail err =>
          ret (Some (Errorf ("Failed to get port with id " ++ ValueOf (PortID act)
                               ++ ": " ++ err)), e)
      | Ok port =>
          match lbSecurityGroup e with
          | Some sg =>
              if port_needs_repair port (ValueOf (sgID sg)) then
                u <- call (EUpdatePort (ValueOf (PortID act)) [ValueOf (sgID sg)])
                          (UpdatePort cloud (ValueOf (PortID act))
                                      [ValueOf (sgID sg)]) ;;
                match u with
                | Fail err =>
                    ret (Some (Errorf ("Failed to update security group for port "
                                         ++ ValueOf (PortID act) ++ ": " ++ err)), e)
                | Ok _ => ret (None, e)
                end
              else ret (None, e)
          | None => ret (None, e)
          end
      end
  end.

End Tasks.

(** ** Bounded exponential backoff (k8s.io/apimachinery/pkg/util/wait) *)

Module wait.

(** The fields of [wait.Backoff] set by this file; [Jitter] and [Cap]
    keep their zero value, which disables them. [Duration] counts
    nanoseconds ([time.Duration] is an int64), [Factor] is a float64. *)
Record Backoff := mkBackoff {
  Duration : Z;
  Factor : float;
  Steps : nat
}.

Definition float64_of_int64 (d : Z) : float :=
  PrimFloat.of_uint63 (Uint63.of_Z d).

(** Conversion of a float64 to an integer: the fraction is discarded. *)
Definition int64_of_float64 (f : float) : Z :=
  match Prim2SF f with
  | S754_finite s m e =>
      let v := if 0 <=? e then Z.pos m * 2 ^ e else Z.pos m / 2 ^ (- e) in
      if s then - v else v
  | _ => 0
  end.

(** [time.Duration(float64(b.Duration) * b.Factor)], applied when the
    factor is not zero. *)
Definition grow (d : Z) (factor : float) : Z :=
  if PrimFloat.eqb factor 0%float then d
  else int64_of_float64 (PrimFloat.mul (float64_of_int64 d) factor).

(** [Backoff.Step]: the delay to sleep now, and the backoff advanced. *)
Definition Step (b : Backoff) : Z * Backoff :=
  match Steps b with
  | O => (Duration b, b)
  | S n => (Duration b, mkBackoff (grow (Duration b) (Factor b)) (Factor b) n)
  end.

(** The delays handed out by [n] successive calls of [Step]. *)
Fixpoint schedule (n : nat) (b : Backoff) : list Z :=
  match n with
  | O => []
  | S n' => fst (Step b) :: schedule n' (snd (Step b))
  end.

Section Loop.

Context {W L : Type}.

(** The condition is a closure; [L] is the state it captures. Its
    result is Go's [(bool, error)]. *)
Variable condition : L -> M W (L * bool * option error).

(** [for backoff.Steps > 0 { ... }] of [ExponentialBackoff]; the first
    argument is [backoff.Steps]. *)
Fixpoint loop (steps : nat) (b : Backoff) (l : L) : M W (L * option error) :=
  match steps with
  | O => ret (l, Some ErrWaitTimeout)
  | S n =>
      r <- condition l ;;
      match r with
      | (l', _, Some err) => ret (l', Some err)
      | (l', true, None) => ret (l', None)
      | (l', false, None) =>
          match n with
          | O => ret (l', Some ErrWaitTimeout)           (* Steps == 1: break *)
          | S _ =>
              _ <- sleep (fst (Step b)) ;;
              loop n (snd (Step b)) l'
          end
      end
  end.

Definition ExponentialBackoff (b : Backoff) (l : L) : M W (L * option error) :=
  loop (Steps b) b l.

End Loop.

End wait.

(** ** The provisioning-status poller *)

(** [1 * time.Second], in nanoseconds. *)
Definition loadbalancerActiveInitDelay : Z := 1 * 1000000000.
(** The float64 nearest to the constant 1.2. *)
Definition loadbalancerActiveFactor : float := 0x1.3333333333333p+0%float.
Definition loadbalancerActiveSteps : nat := 22.

Definition activeStatus : string := "ACTIVE".
Definition errorStatus : string := "ERROR".

Section Poller.

Context {W : Type}.
Variable cloud : OpenstackCloud W.

(** The closure passed to [wait.ExponentialBackoff]; the captured
    variable is [provisioningStatus]. *)
Definition poll_condition (loadbalancerID : string) (provisioningStatus : string)
  : M W (string * bool * option error) :=
  r <- call (EGetLoadBalancer loadbalancerID)
            (GetLoadBalancer cloud loadbalancerID) ;;
  match r with
  | Fail err => ret (provisioningStatus, false, Some (RemoteError err))
  | Ok loadbalancer =>
      let st := loadbalancers.ProvisioningStatus loadbalancer in
      if String.eqb st activeStatus then ret (st, true, None)
      else if String.eqb st errorStatus then
        ret (st, true, Some (Errorf "loadbalancer has gone into ERROR state"))
      else ret (st, false, None)
  end.

Definition waitLoadbalancerActiveProvisioningStatus (loadbalancerID : string)
  : M W (string * option error) :=
  let backoff :=
    wait.mkBackoff loadbalancerActiveInitDelay loadbalancerActiveFactor
                   loadbalancerActiveSteps in
  r <- wait.ExponentialBackoff (poll_condition loadbalancerID) backoff "" ;;
  match r with
  | (provisioningStatus, Some ErrWaitTimeout) =>
      ret (provisioningStatus,
           Some (Errorf "loadbalancer failed to go into ACTIVE provisioning status within allotted time"))
  | (provisioningStatus, err) => ret (provisioningStatus, err)
  end.

End Poller.

(** ** A simulated provider

    A small stateful cloud used to run the task on concrete inputs: load
    balancers, subnets, security groups and ports are lists, a port update
    replaces the port's security-group list, and two knobs inject faults
    (the next port updates fail, the next port fetches fail). Status
    fetches follow a script. *)

Module Sim.

Record World := mkWorld {
  lbs : list loadbalancers.LoadBalancer;
  nets : list subnets.Subnet;
  groups : list SecurityGroup;
  vports : list ports.Port;
  update_faults : nat;
  fetch_faults : nat;
  statuses : list (result string string)
}.

Definition set_port (id : string) (sgs : list string) (p : ports.Port) : ports.Port :=
  if String.eqb (ports.ID p) id then ports.mkPort id sgs else p.

Definition list_lbs (name : string) (w : World) : result string Page * World :=
  (Ok (PageOk (filter (fun l => String.eqb (loadbalancers.Name l) name) (lbs w))), w).

Definition get_subnet (id : string) (w : World)
  : result string subnets.Subnet * World :=
  match find (fun n => String.eqb (subnets.ID n) id) (nets w) with
  | Some n => (Ok n, w)
  | None => (Fail "Resource not found", w)
  end.

Definition sg_by_name (arg : SecurityGroup) (w : World)
  : result error (option SecurityGroup) * World :=
  match filter (fun g => String.eqb (ValueOf (sgName g)) (ValueOf (sgName arg)))
               (groups w) with
  | [] => (Ok None, w)
  | [g] => (Ok (Some g), w)
  | _ => (Fail (Errorf ("found multiple SecurityGroups with name: "
                          ++ ValueOf (sgName arg))), w)
  end.

Definition list_subnets (name : string) (w : World)
  : result string (list subnets.Subnet) * World :=
  (Ok (filter (fun n => String.eqb (subnets.Name n) name) (nets w)), w).

Definition create_lb (opts : loadbalancers.CreateOpts) (w : World)
  : result string loadbalancers.LoadBalancer * World :=
  let name := loadbalancers.optName opts in
  let lb :=
    loadbalancers.mkLoadBalancer ("lb-" ++ name) name ("port-" ++ name)
      (loadbalancers.optVipSubnetID opts) "amphora"
      (loadbalancers.optFlavorID opts) "PENDING_CREATE" in
  (Ok lb,
   mkWorld (lbs w ++ [lb]) (nets w) (groups w)
           (vports w ++ [ports.mkPort ("port-" ++ name) []])
           (update_faults w) (fetch_faults w) (statuses w)).

Definition get_port (id : string) (w : World) : result string ports.Port * World :=
  match fetch_faults w with
  | S k =>
      (Fail "Service Unavailable",
       mkWorld (lbs w) (nets w) (groups w) (vports w) (update_faults w) k (statuses w))
  | O =>
      match find (fun p => String.eqb (ports.ID p) id) (vports w) with
      | Some p => (Ok p, w)
      | None => (Fail "Resource not found", w)
      end
  end.

Definition update_port (id : string) (sgs : list string) (w : World)
  : result string ports.Port * World :=
  match update_faults w with
  | S k =>
      (Fail "Service Unavailable",
       mkWorld (lbs w) (nets w) (groups w) (vports w) k (fetch_faults w) (statuses w))
  | O =>
      (Ok (ports.mkPort id sgs),
       mkWorld (lbs w) (nets w) (groups w) (map (set_port id sgs) (vports w))
               O (fetch_faults w) (statuses w))
  end.

Definition get_lb (id : string) (w : World)
  : result string loadbalancers.LoadBalancer * World :=
  match statuses w with
  | [] => (Ok (loadbalancers.mkLoadBalancer id "" "" "" "" "" "PENDING_CREATE"), w)
  | o :: rest =>
      let w' := mkWorld (lbs w) (nets w) (groups w) (vports w)
                        (update_faults w) (fetch_faults w) rest in
      match o with
      | Ok st => (Ok (loadbalancers.mkLoadBalancer id "" "" "" "" "" st), w')
      | Fail msg => (Fail msg, w')
      end
  end.

Definition cloud : OpenstackCloud World :=
  mkCloud list_lbs get_subnet sg_by_name list_subnets create_lb
          get_port update_port get_lb.

(** One subnet, one security group, nothing created yet. *)
Definition empty : World :=
  mkWorld [] [subnets.mkSubnet "net-1" "utility"]
          [mkSecurityGroup (Some "sg-1") (Some "api.k8s.local")] [] 0 0 [].

Definition start (w : World) : St World := mkSt w [].

(** The desired task of the examples. *)
Definition desired : LB :=
  mkLB None (Some "api.k8s.local") (Some "utility") None "Sync" None
       (Some (mkSecurityGroup (Some "sg-1") (Some "api.k8s.local"))) None None.

Definition desired_nosg : LB :=
  mkLB None (Some "api.k8s.local") (Some "utility") None "Sync" None None None None.

Definition no_changes : LB := mkLB None None None None "" None None None None.

(** The desired task without its name. *)
Definition unnamed : LB :=
  mkLB None None (Some "utility") None "Sync" None None None None.

(** The remote load balancer of the examples and its port. *)
Definition remote_lb : loadbalancers.LoadBalancer :=
  loadbalancers.mkLoadBalancer "lb-api.k8s.local" "api.k8s.local"
    "port-api.k8s.local" "net-1" "amphora" "" "PENDING_CREATE".

(** The load balancer exists and its port has no security group: the state
    left by a creation whose port update failed. *)
Definition half_created : World :=
  mkWorld [remote_lb] (nets empty) (groups empty)
          [ports.mkPort "port-api.k8s.local" []] 0 0 [].

(** The load balancer exists and its port carries the security group. *)
Definition converged : World :=
  mkWorld [remote_lb] (nets empty) (groups empty)
          [ports.mkPort "port-api.k8s.local" ["sg-1"]] 0 0 [].

(** Two load balancers carry the same name. *)
Definition duplicated : World :=
  mkWorld [remote_lb; remote_lb] (nets empty) (groups empty) [] 0 0 [].

(** The load balancer's subnet is gone. *)
Definition orphaned : World :=
  mkWorld [remote_lb] [] (groups empty) [] 0 0 [].

(** The next port update fails. *)
Definition update_fails (w : World) : World :=
  mkWorld (lbs w) (nets w) (groups w) (vports w) 1 (fetch_faults w) (statuses w).

(** The next port fetch fails. *)
Definition fetch_fails (w : World) : World :=
  mkWorld (lbs w) (nets w) (groups w) (vports w) (update_faults w) 1 (statuses w).

(** The actual task discovered for [remote_lb]. *)
Definition actual : LB :=
  mkLB (Some "lb-api.k8s.local") (Some "api.k8s.local") (Some "utility")
       (Some "net-1") "Sync" (Some "port-api.k8s.local")
       (Some (mkSecurityGroup (Some "sg-1") (Some "api.k8s.local")))
       (Some "amphora") (Some "").

(** A world whose status fetches follow the given script. *)
Definition scripted (script : list (result string string)) : World :=
  mkWorld [] [] [] [] 0 0 script.

End Sim.

(** ** Dependencies and identity *)

(** The [Subnet] task is declared in subnet.go; this file only tests for its
    type, so its identifier and name stand for the whole task. *)
Record SubnetTask := mkSubnetTask {
  subnetTaskID : option string;
  subnetTaskName : option string
}.

(** A [fi.CloudupTask], by its dynamic type: the two types
    [GetDependencies] asserts, the load balancer itself, and any other
    task, known by the name of its type. *)
Inductive CloudupTask :=
| TaskSubnet (t : SubnetTask)
| TaskSecurityGroup (t : SecurityGroup)
| TaskLB (t : LB)
| TaskOther (kind : string).

(** The type assertion of [task] to a pointer to [Subnet] succeeds. *)
Definition is_Subnet (task : CloudupTask) : bool :=
  match task with
  | TaskSubnet _ => true
  | _ => false
  end.

(** The type assertion of [task] to a pointer to [SecurityGroup] succeeds. *)
Definition is_SecurityGroup (task : CloudupTask) : bool :=
  match task with
  | TaskSecurityGroup _ => true
  | _ => false
  end.

(** [GetDependencies]. The map [tasks] is given by its entries in the order
    in which the [range] loop visits them; [deps] starts nil and each of the
    two tests appends the task. *)
Definition GetDependencies (e : LB) (tasks : list (string * CloudupTask))
  : list CloudupTask :=
  fold_left
    (fun (deps : list CloudupTask) (entry : string * CloudupTask) =>
       let task := snd entry in
       let deps1 := if is_Subnet task then (deps ++ [task])%list else deps in
       if is_SecurityGroup task then (deps1 ++ [task])%list else deps1)
    tasks [].

(** [CompareWithID]. *)
Definition CompareWithID (s : LB) : option string := ID s.

(** ** Reading traces *)

(** The security-group lists written by the port updates of a trace. *)
Definition security_groups_written (tr : list Event) : list (list string) :=
  flat_map
    (fun ev =>
       match ev with
       | EUpdatePort _ sgs => [sgs]
       | _ => []
       end)
    tr.

Definition is_port_fetch (ev : Event) : bool :=
  match ev with
  | EGetPort _ => true
  | _ => false
  end.


(** ** Simulated providers with a broken listing *)

Module SimFaults.



End SimFaults.

(** ** Observing a wait *)

Section Outcomes.

Context {W : Type}.
Variable cloud : OpenstackCloud W.
Variable loadbalancerID : string.

(** The world after [n] status fetches. *)
Fixpoint world_after (n : nat) (w : W) : W :=
  match n with
  | O => w
  | S k => world_after k (snd (GetLoadBalancer cloud loadbalancerID w))
  end.

(** The answer to status fetch number [n], counting from 0. *)
Definition outcome (n : nat) (w : W)
  : result string loadbalancers.LoadBalancer :=
  fst (GetLoadBalancer cloud loadbalancerID (world_after n w)).

End Outcomes.

(** The status carried by an answer, [dflt] for a failed fetch. *)
Definition status_of (dflt : string)
    (o : result string loadbalancers.LoadBalancer) : string :=
  match o with
  | Ok lb => loadbalancers.ProvisioningStatus lb
  | Fail _ => dflt
  end.

(** An answer that is neither a failure of the fetch nor a terminal status. *)
Definition in_progress (o : result string loadbalancers.LoadBalancer) : bool :=
  match o with
  | Ok lb =>
      negb (String.eqb (loadbalancers.ProvisioningStatus lb) activeStatus)
      && negb (String.eqb (loadbalancers.ProvisioningStatus lb) errorStatus)
  | Fail _ => false
  end.

(** What the closure answers, by the answer of the fetch. *)
Definition verdict (carried : string)
    (o : result string loadbalancers.LoadBalancer)
  : string * bool * option error :=
  match o with
  | Fail msg => (carried, false, Some (RemoteError msg))
  | Ok lb =>
      let st := loadbalancers.ProvisioningStatus lb in
      if String.eqb st activeStatus then (st, true, None)
      else if String.eqb st errorStatus then
        (st, true, Some (Errorf "loadbalancer has gone into ERROR state"))
      else (st, false, None)
  end.

(** What the wait returns when the closure stops it. *)
Definition stop_result (carried : string)
    (o : result string loadbalancers.LoadBalancer) : string * option error :=
  let '(st, _, err) := verdict carried o in (st, err).

(** The calls of a wait that makes [n] attempts: a fetch per attempt and a
    sleep between two attempts. *)
Fixpoint poll_trace (id : string) (n : nat) (b : wait.Backoff) : list Event :=
  match n with
  | O => []
  | S O => [EGetLoadBalancer id]
  | S (S _ as n') =>
      EGetLoadBalancer id :: ESleep (fst (wait.Step b))
        :: poll_trace id n' (snd (wait.Step b))
  end.

(** The backoff built by the poller. *)
Definition poller_backoff : wait.Backoff :=
  wait.mkBackoff loadbalancerActiveInitDelay loadbalancerActiveFactor
                 loadbalancerActiveSteps.

Definition sum_delays (ds : list Z) : Z := fold_right Z.add 0 ds.

(** ** Reading descriptors *)

(** The five remote-assigned fields of [t'] are those of the remote load
    balancer [lb]; its other fields are those of [t]. *)
Definition remote_fields_assigned (t : LB) (lb : loadbalancers.LoadBalancer)
    (t' : LB) : Prop :=
  ID t' = Some (loadbalancers.ID lb)
  /\ PortID t' = Some (loadbalancers.VipPortID lb)
  /\ VipSubnet t' = Some (loadbalancers.VipSubnetID lb)
  /\ Provider t' = Some (loadbalancers.Provider lb)
  /\ FlavorID t' = Some (loadbalancers.FlavorID lb)
  /\ Name t' = Name t
  /\ Subnet t' = Subnet t
  /\ lbSecurityGroup t' = lbSecurityGroup t
  /\ lbLifecycle t' = lbLifecycle t.

(** [actual] is the descriptor rebuilt from the remote load balancer [lb],
    its subnet [sub] and the security group [sg]. *)
Definition reconstructed (lifecycle : Lifecycle)
    (lb : loadbalancers.LoadBalancer) (sub : subnets.Subnet)
    (sg : option SecurityGroup) (actual : LB) : Prop :=
  ID actual = Some (loadbalancers.ID lb)
  /\ Name actual = Some (loadbalancers.Name lb)
  /\ Subnet actual = Some (subnets.Name sub)
  /\ VipSubnet actual = Some (loadbalancers.VipSubnetID lb)
  /\ lbLifecycle actual = lifecycle
  /\ PortID actual = Some (loadbalancers.VipPortID lb)
  /\ lbSecurityGroup actual = sg
  /\ Provider actual = Some (loadbalancers.Provider lb)
  /\ FlavorID actual = Some (loadbalancers.FlavorID lb).

(** The argument of the security-group lookup made for [lb]. *)
Definition sg_lookup_arg (lb : loadbalancers.LoadBalancer) : SecurityGroup :=
  {| sgID := None; sgName := Some (loadbalancers.Name lb) |}.

(** * Theorems *)

(** ** Change validation *)

(** C3: with no actual task, validation fails with the required-field error
    exactly when the desired name is unset; with an actual task it fails
    with an immutable-field error exactly when the delta carries an ID or a
    name, whatever its other fields; otherwise it succeeds. *)
Theorem CheckChanges_contract :
  (forall e changes : LB,
      (CheckChanges None e changes = Some (RequiredField "Name") <-> Name e = None)
      /\ (Name e <> None -> CheckChanges None e changes = None))
  /\
  (forall act e changes : LB,
      ((exists key, CheckChanges (Some act) e changes = Some (CannotChangeField key))
       <-> (ID changes <> None \/ Name changes <> None))
      /\ (ID changes = None -> Name changes = None ->
          CheckChanges (Some act) e changes = None)
      /\ (CheckChanges (Some act) e changes <> None ->
          exists key, CheckChanges (Some act) e changes = Some (CannotChangeField key))).
Proof.
  split.
  - intros e changes. unfold CheckChanges.
    destruct (Name e) as [n|]; split.
    + split; [discriminate | discriminate].
    + reflexivity.
    + split; reflexivity.
    + intros H. now contradiction H.
  - intros act e changes. unfold CheckChanges.
    destruct (ID changes) as [i|]; [|destruct (Name changes) as [n|]].
    + split; [split|split].
      * intros _. left. discriminate.
      * intros _. now exists "ID".
      * discriminate.
      * intros _. now exists "ID".
    + split; [split|split].
      * intros _. right. discriminate.
      * intros _. now exists "Name".
      * discriminate.
      * intros _. now exists "Name".
    + split; [split|split].
      * intros [key H]. discriminate.
      * intros [H | H]; now contradiction H.
      * reflexivity.
      * intros H. now contradiction H.
Qed.

(** A concrete reading of the contract: a delta that only renames is
    rejected, a delta that only changes the subnet is accepted. *)
Lemma CheckChanges_contract_witness :
  (exists key,
      CheckChanges (Some Sim.desired) Sim.desired
        (mkLB None (Some "other") None None "" None None None None)
      = Some (CannotChangeField key))
  /\ CheckChanges (Some Sim.desired) Sim.desired
       (mkLB None None (Some "other") None "" None None None None) = None.
Proof.
  destruct CheckChanges_contract as [_ H]. split.
  - apply (proj1 (H Sim.desired Sim.desired _)). right. discriminate.
  - apply (proj1 (proj2 (H Sim.desired Sim.desired _))); reflexivity.
Defined.

(** ** Discovery *)

Section FindFacts.

Context {W : Type}.
Variable cloud : OpenstackCloud W.

(** C8: with the name unset, discovery answers "absent" without an error,
    issues no remote call and leaves receiver, world and trace as they
    were. *)
Theorem Find_unset_name (s : LB) (st : St W) :
  Name s = None -> Find cloud s st = (Ok None, s, st).
Proof.
  intros H. unfold Find. now rewrite H.
Qed.

(** C4: when the listing for the name has no entry, discovery answers
    "absent" without an error; when it has more than one, discovery fails
    with the error naming the load balancer's name. In both cases the
    listing is the only remote call and the receiver is untouched. *)
Theorem Find_match_count (s : LB) (st : St W) (name : string)
    (lbs : list loadbalancers.LoadBalancer) (w' : W) :
  Name s = Some name ->
  ListLoadBalancers cloud name (world st) = (Ok (PageOk lbs), w') ->
  (List.length lbs = 0%nat ->
   Find cloud s st
   = (Ok None, s, mkSt w' (trace st ++ [EListLoadBalancers name])))
  /\
  ((1 < List.length lbs)%nat ->
   Find cloud s st
   = (Fail (Errorf ("Multiple load balancers for name " ++ name)), s,
      mkSt w' (trace st ++ [EListLoadBalancers name]))).
Proof.
  intros Hn Hl. unfold Find, bind, call, ret. rewrite Hn. cbn [ValueOf].
  rewrite Hl. cbn [ExtractLoadBalancers].
  split; intros Hlen.
  - destruct lbs as [|lb rest]; [reflexivity | discriminate].
  - destruct lbs as [|lb [|lb' rest]]; cbn in Hlen; try lia. reflexivity.
Qed.

(** C7: when the listing has exactly one entry [lb], the subnet of [lb] is
    looked up by its VIP-subnet identifier and a failure of that lookup is
    returned as it is; the security group is looked up, by the name of
    [lb], exactly when the receiver has a security group set; the returned
    descriptor carries the subnet's name and the group found; and the
    receiver gets the five remote-assigned fields of [lb] and keeps its
    name, subnet, security group and lifecycle. *)
Theorem Find_single_match (s : LB) (st : St W) (name : string)
    (lb : loadbalancers.LoadBalancer) (w1 : W) :
  Name s = Some name ->
  ListLoadBalancers cloud name (world st) = (Ok (PageOk [lb]), w1) ->
  let r := Find cloud s st in
  let listed := (trace st ++ [EListLoadBalancers name])%list in
  let vip := loadbalancers.VipSubnetID lb in
  (forall msg w2,
      GetSubnet cloud vip w1 = (Fail msg, w2) ->
      r = (Fail (RemoteError msg), s, mkSt w2 (listed ++ [EGetSubnet vip])))
  /\
  (forall sub w2,
      GetSubnet cloud vip w1 = (Ok sub, w2) ->
      (lbSecurityGroup s = None ->
       exists actual s',
         r = (Ok (Some actual), s', mkSt w2 (listed ++ [EGetSubnet vip]))
         /\ reconstructed (lbLifecycle s) lb sub None actual
         /\ remote_fields_assigned s lb s')
      /\
      (lbSecurityGroup s <> None ->
       forall sg w3,
         getSecurityGroupByName cloud (sg_lookup_arg lb) w2 = (Ok sg, w3) ->
         exists actual s',
           r = (Ok (Some actual), s',
                mkSt w3 (listed ++ [EGetSubnet vip;
                                    EGetSecurityGroupByName
                                      (Some (loadbalancers.Name lb))]))
           /\ reconstructed (lbLifecycle s) lb sub sg actual
           /\ remote_fields_assigned s lb s')
      /\
      (lbSecurityGroup s <> None ->
       forall err w3,
         getSecurityGroupByName cloud (sg_lookup_arg lb) w2 = (Fail err, w3) ->
         r = (Fail err, s,
              mkSt w3 (listed ++ [EGetSubnet vip;
                                  EGetSecurityGroupByName
                                    (Some (loadbalancers.Name lb))])))).
Proof.
  intros Hn Hl r listed vip. subst r listed vip.
  unfold Find, NewLBTaskFromCloud, bind, call, ret.
  rewrite Hn. cbn [ValueOf]. rewrite Hl.
  cbn [ExtractLoadBalancers world trace]. split.
  - intros msg w2 Hs. rewrite Hs. cbn. now rewrite <- app_assoc.
  - intros sub w2 Hs. rewrite Hs. cbn [world trace]. repeat split.
    + intros Hsg. rewrite Hsg. do 2 eexists. split.
      * rewrite <- app_assoc. reflexivity.
      * split; unfold reconstructed, remote_fields_assigned; cbn;
          rewrite ?Hsg, ?Hn; repeat split; reflexivity.
    + intros Hsg sg w3 Hg. destruct (lbSecurityGroup s) as [g|] eqn:E;
        [clear Hsg | now contradiction Hsg].
      unfold sg_lookup_arg, PtrTo in *. cbn [sgName world trace]. rewrite Hg.
      do 2 eexists. split.
      * rewrite <- app_assoc. reflexivity.
      * split; unfold reconstructed, remote_fields_assigned; cbn;
          rewrite ?E, ?Hn; repeat split; reflexivity.
    + intros Hsg err w3 Hg. destruct (lbSecurityGroup s) as [g|] eqn:E;
        [clear Hsg | now contradiction Hsg].
      unfold sg_lookup_arg, PtrTo in *. cbn [sgName world trace]. rewrite Hg.
      rewrite <- app_assoc. reflexivity.
Qed.

End FindFacts.

(** Discovery with the name unset, on the simulated provider. *)
Lemma Find_unset_name_witness :
  Find Sim.cloud Sim.unnamed (Sim.start Sim.converged)
  = (Ok None, Sim.unnamed, Sim.start Sim.converged).
Proof.
  apply (Find_unset_name Sim.cloud Sim.unnamed (Sim.start Sim.converged)).
  reflexivity.
Defined.

(** No load balancer of that name, and two of them. *)
Lemma Find_match_count_witness :
  Find Sim.cloud Sim.desired (Sim.start Sim.empty)
  = (Ok None, Sim.desired,
     mkSt Sim.empty [EListLoadBalancers "api.k8s.local"])
  /\
  Find Sim.cloud Sim.desired (Sim.start Sim.duplicated)
  = (Fail (Errorf "Multiple load balancers for name api.k8s.local"),
     Sim.desired,
     mkSt Sim.duplicated [EListLoadBalancers "api.k8s.local"]).
Proof.
  split.
  - apply (proj1 (Find_match_count Sim.cloud Sim.desired (Sim.start Sim.empty)
                    "api.k8s.local" [] Sim.empty eq_refl eq_refl)).
    reflexivity.
  - apply (proj2 (Find_match_count Sim.cloud Sim.desired
                    (Sim.start Sim.duplicated) "api.k8s.local"
                    [Sim.remote_lb; Sim.remote_lb] Sim.duplicated
                    eq_refl eq_refl)).
    cbn. lia.
Defined.

(** One load balancer of that name: the receiver with and without a
    security group, and a load balancer whose subnet cannot be fetched. *)
Lemma Find_single_match_witness :
  (exists actual s',
      Find Sim.cloud Sim.desired (Sim.start Sim.converged)
      = (Ok (Some actual), s',
         mkSt Sim.converged
              [EListLoadBalancers "api.k8s.local"; EGetSubnet "net-1";
               EGetSecurityGroupByName (Some "api.k8s.local")])
      /\ reconstructed "Sync" Sim.remote_lb (subnets.mkSubnet "net-1" "utility")
           (Some (mkSecurityGroup (Some "sg-1") (Some "api.k8s.local"))) actual
      /\ remote_fields_assigned Sim.desired Sim.remote_lb s')
  /\
  (exists actual s',
      Find Sim.cloud Sim.desired_nosg (Sim.start Sim.converged)
      = (Ok (Some actual), s',
         mkSt Sim.converged
              [EListLoadBalancers "api.k8s.local"; EGetSubnet "net-1"])
      /\ reconstructed "Sync" Sim.remote_lb (subnets.mkSubnet "net-1" "utility")
           None actual
      /\ remote_fields_assigned Sim.desired_nosg Sim.remote_lb s')
  /\
  Find Sim.cloud Sim.desired (Sim.start Sim.orphaned)
  = (Fail (RemoteError "Resource not found"), Sim.desired,
     mkSt Sim.orphaned [EListLoadBalancers "api.k8s.local"; EGetSubnet "net-1"]).
Proof.
  split; [|split].
  - destruct (Find_single_match Sim.cloud Sim.desired (Sim.start Sim.converged)
                "api.k8s.local" Sim.remote_lb Sim.converged eq_refl eq_refl)
      as [_ H].
    destruct (H (subnets.mkSubnet "net-1" "utility") Sim.converged eq_refl)
      as [_ [H1 _]].
    apply (H1 ltac:(discriminate)
              (Some (mkSecurityGroup (Some "sg-1") (Some "api.k8s.local")))
              Sim.converged eq_refl).
  - destruct (Find_single_match Sim.cloud Sim.desired_nosg
                (Sim.start Sim.converged)
                "api.k8s.local" Sim.remote_lb Sim.converged eq_refl eq_refl)
      as [_ H].
    destruct (H (subnets.mkSubnet "net-1" "utility") Sim.converged eq_refl)
      as [H0 _].
    apply (H0 eq_refl).
  - destruct (Find_single_match Sim.cloud Sim.desired (Sim.start Sim.orphaned)
                "api.k8s.local" Sim.remote_lb Sim.orphaned eq_refl eq_refl)
      as [H _].
    apply (H "Resource not found" Sim.orphaned eq_refl).
Defined.

(** ** Counting calls *)

Lemma count_app (p : Event -> bool) (l1 l2 : list Event) :
  count p (l1 ++ l2) = (count p l1 + count p l2)%nat.
Proof.
  unfold count. now rewrite filter_app, length_app.
Qed.

Lemma total_sleep_app (l1 l2 : list Event) :
  total_sleep (l1 ++ l2) = total_sleep l1 + total_sleep l2.
Proof.
  unfold total_sleep. induction l1 as [|ev l1 IH]; cbn [app fold_right]; lia.
Qed.

(** ** Convergence: the repair path *)

Section RepairFacts.

Context {W : Type}.
Variable cloud : OpenstackCloud W.

(** C10: with an actual task, the first call of convergence is the fetch of
    the port [actual.PortID], whether or not a security group is desired; if
    that fetch fails, convergence fails with the error that names the port
    identifier, and the fetch is its only call. *)
Theorem Render_fetches_port_first (act e changes : LB) (st : St W) :
  let pid := ValueOf (PortID act) in
  let r := RenderOpenstack cloud (Some act) e changes st in
  (exists rest, trace (snd r) = (trace st ++ EGetPort pid :: rest)%list)
  /\
  (forall msg w1,
      GetPort cloud pid (world st) = (Fail msg, w1) ->
      r = (Some (Errorf ("Failed to get port with id " ++ pid ++ ": " ++ msg)),
           e, mkSt w1 (trace st ++ [EGetPort pid]))
      /\ count is_mutation (trace (snd r)) = count is_mutation (trace st)).
Proof.
  intros pid r. subst pid r. unfold RenderOpenstack, bind, call, ret. split.
  - destruct (GetPort cloud (ValueOf (PortID act)) (world st)) as [[port|msg] w1];
      cbn [world trace].
    + destruct (lbSecurityGroup e) as [sg|].
      * destruct (port_needs_repair port (ValueOf (sgID sg))).
        -- cbn [world trace].
           destruct (UpdatePort cloud (ValueOf (PortID act))
                       [ValueOf (sgID sg)] w1) as [[p|m] w2];
             cbn [snd trace]; rewrite <- app_assoc; eexists; reflexivity.
        -- cbn [snd trace]. now exists [].
      * cbn [snd trace]. now exists [].
    + cbn [snd trace]. now exists [].
  - intros msg w1 H. rewrite H. cbn [snd trace]. split; [reflexivity|].
    rewrite count_app. cbn. lia.
Qed.

(** C1: with an actual task, a desired security group and a fetched port
    whose security-group list is empty or starts with another group,
    convergence issues, after the fetch, exactly one call: the update of
    that port to the list holding only the desired group. No load balancer
    is created and the desired task is not modified. The call's failure is
    returned as an error naming the port. *)
Theorem Render_repairs_port (act e changes : LB) (st : St W)
    (sg : SecurityGroup) (port : ports.Port) (w1 : W) :
  let pid := ValueOf (PortID act) in
  let want := ValueOf (sgID sg) in
  lbSecurityGroup e = Some sg ->
  GetPort cloud pid (world st) = (Ok port, w1) ->
  (ports.SecurityGroups port = []
   \/ exists g rest, ports.SecurityGroups port = g :: rest /\ g <> want) ->
  let r := RenderOpenstack cloud (Some act) e changes st in
  trace (snd r) = (trace st ++ [EGetPort pid; EUpdatePort pid [want]])%list
  /\ count is_port_update (trace (snd r)) = S (count is_port_update (trace st))
  /\ count is_create (trace (snd r)) = count is_create (trace st)
  /\ snd (fst r) = e
  /\ (forall p w2,
         UpdatePort cloud pid [want] w1 = (Ok p, w2) ->
         fst (fst r) = None /\ world (snd r) = w2)
  /\ (forall msg w2,
         UpdatePort cloud pid [want] w1 = (Fail msg, w2) ->
         fst (fst r)
         = Some (Errorf ("Failed to update security group for port "
                           ++ pid ++ ": " ++ msg))).
Proof.
  intros pid want Hsg Hp Hdrift r.
  assert (Hneed : port_needs_repair port want = true).
  { unfold port_needs_repair. destruct Hdrift as [-> | (g & rest & -> & Hne)].
    - reflexivity.
    - apply negb_true_iff. now apply String.eqb_neq. }
  assert (Hr : r = (let (u, w2) := UpdatePort cloud pid [want] w1 in
                    (match u with
                     | Ok _ => None
                     | Fail msg =>
                         Some (Errorf ("Failed to update security group for port "
                                         ++ pid ++ ": " ++ msg))
                     end, e,
                     mkSt w2 (trace st ++ [EGetPort pid; EUpdatePort pid [want]])))).
  { subst r. unfold RenderOpenstack, bind, call, ret. fold pid. rewrite Hp.
    cbn [world trace]. rewrite Hsg. fold want. rewrite Hneed.
    cbn [world trace].
    destruct (UpdatePort cloud pid [want] w1) as [[p|m] w2];
      now rewrite <- app_assoc. }
  rewrite Hr. clear Hr.
  destruct (UpdatePort cloud pid [want] w1) as [[p|m] w2]; cbn [fst snd trace world];
    rewrite !count_app; cbn [count filter is_port_update is_create List.length];
    (split; [reflexivity|]); (split; [lia|]); (split; [lia|]);
    (split; [reflexivity|]); split; intros ? ? [=]; subst; auto.
Qed.

(** C2 (as amended): with an actual task and a successful fetch of its
    port, when no security group is desired or the port's list already
    starts with the desired group, convergence returns no error, issues no
    call besides the fetch, and leaves the desired task as it was. *)
Theorem Render_noop_when_converged (act e changes : LB) (st : St W)
    (port : ports.Port) (w1 : W) :
  let pid := ValueOf (PortID act) in
  GetPort cloud pid (world st) = (Ok port, w1) ->
  (lbSecurityGroup e = None
   \/ exists sg, lbSecurityGroup e = Some sg
                 /\ hd_error (ports.SecurityGroups port) = Some (ValueOf (sgID sg))) ->
  let r := RenderOpenstack cloud (Some act) e changes st in
  r = (None, e, mkSt w1 (trace st ++ [EGetPort pid]))
  /\ count is_mutation (trace (snd r)) = count is_mutation (trace st).
Proof.
  intros pid Hp Hok r.
  assert (Hr : r = (None, e, mkSt w1 (trace st ++ [EGetPort pid]))).
  { subst r. unfold RenderOpenstack, bind, call, ret. fold pid. rewrite Hp.
    cbn [world trace]. destruct Hok as [-> | (sg & -> & Hhd)]; [reflexivity|].
    unfold port_needs_repair.
    destruct (ports.SecurityGroups port) as [|g rest]; [discriminate|].
    cbn in Hhd. injection Hhd as ->. now rewrite String.eqb_refl. }
  split; [exact Hr|]. rewrite Hr. cbn [snd trace]. rewrite count_app. cbn. lia.
Qed.

End RepairFacts.

(** The port fetch fails although no security group is desired. *)
Lemma Render_fetches_port_first_witness :
  RenderOpenstack Sim.cloud (Some Sim.actual) Sim.desired_nosg Sim.no_changes
    (Sim.start (Sim.fetch_fails Sim.converged))
  = (Some (Errorf "Failed to get port with id port-api.k8s.local: Service Unavailable"),
     Sim.desired_nosg,
     mkSt Sim.converged [EGetPort "port-api.k8s.local"]).
Proof.
  apply (proj2 (Render_fetches_port_first Sim.cloud Sim.actual Sim.desired_nosg
                  Sim.no_changes (Sim.start (Sim.fetch_fails Sim.converged)))
               "Service Unavailable" Sim.converged eq_refl).
Defined.

(** The port of a half-created load balancer is repaired. *)
Lemma Render_repairs_port_witness :
  let r := RenderOpenstack Sim.cloud (Some Sim.actual) Sim.desired
             Sim.no_changes (Sim.start Sim.half_created) in
  trace (snd r)
  = [EGetPort "port-api.k8s.local"; EUpdatePort "port-api.k8s.local" ["sg-1"]]
  /\ fst (fst r) = None
  /\ world (snd r) = Sim.converged.
Proof.
  destruct (Render_repairs_port Sim.cloud Sim.actual Sim.desired Sim.no_changes
              (Sim.start Sim.half_created)
              (mkSecurityGroup (Some "sg-1") (Some "api.k8s.local"))
              (ports.mkPort "port-api.k8s.local" []) Sim.half_created
              eq_refl eq_refl (or_introl eq_refl))
    as (Ht & _ & _ & _ & Hok & _).
  split; [exact Ht|].
  exact (Hok (ports.mkPort "port-api.k8s.local" ["sg-1"]) Sim.converged eq_refl).
Defined.

(** C2 (as stated) fails: no security group is desired, the port fetch
    fails, and convergence returns an error. *)
Lemma Render_noop_needs_port_fetch :
  ~ (forall (W : Type) (cloud : OpenstackCloud W) (act e changes : LB) (st : St W),
        (lbSecurityGroup e = None
         \/ exists sg port w1,
             lbSecurityGroup e = Some sg
             /\ GetPort cloud (ValueOf (PortID act)) (world st) = (Ok port, w1)
             /\ hd_error (ports.SecurityGroups port) = Some (ValueOf (sgID sg))) ->
        let r := RenderOpenstack cloud (Some act) e changes st in
        fst (fst r) = None
        /\ count is_mutation (trace (snd r)) = count is_mutation (trace st)).
Proof.
  intros H.
  destruct (H Sim.World Sim.cloud Sim.actual Sim.desired_nosg Sim.no_changes
              (Sim.start (Sim.fetch_fails Sim.converged)) (or_introl eq_refl))
    as [Herr _].
  vm_compute in Herr. discriminate Herr.
Qed.

(** Convergence on a converged load balancer, with and without a desired
    security group. *)
Lemma Render_noop_when_converged_witness :
  RenderOpenstack Sim.cloud (Some Sim.actual) Sim.desired Sim.no_changes
    (Sim.start Sim.converged)
  = (None, Sim.desired, mkSt Sim.converged [EGetPort "port-api.k8s.local"])
  /\
  RenderOpenstack Sim.cloud (Some Sim.actual) Sim.desired_nosg Sim.no_changes
    (Sim.start Sim.half_created)
  = (None, Sim.desired_nosg, mkSt Sim.half_created [EGetPort "port-api.k8s.local"]).
Proof.
  split.
  - apply (Render_noop_when_converged Sim.cloud Sim.actual Sim.desired
             Sim.no_changes (Sim.start Sim.converged)
             (ports.mkPort "port-api.k8s.local" ["sg-1"]) Sim.converged eq_refl).
    right. exists (mkSecurityGroup (Some "sg-1") (Some "api.k8s.local")).
    split; reflexivity.
  - apply (Render_noop_when_converged Sim.cloud Sim.actual Sim.desired_nosg
             Sim.no_changes (Sim.start Sim.half_created)
             (ports.mkPort "port-api.k8s.local" []) Sim.half_created eq_refl).
    left. reflexivity.
Defined.

(** ** Convergence: the creation path *)

Section CreationFacts.

Context {W : Type}.
Variable cloud : OpenstackCloud W.

(** C6: with no actual task, the subnet name is resolved first; a failed
    listing, or a listing with no or several subnets, is an error and no
    create is issued. With exactly one subnet a single create is issued,
    carrying the subnet's identifier, the task's name and the flavor (empty
    when unset); when the create succeeds the desired task gets the five
    remote-assigned fields of the new load balancer. *)
Theorem Render_creates (e changes : LB) (st : St W) :
  let name := ValueOf (Subnet e) in
  let r := RenderOpenstack cloud None e changes st in
  (forall msg w1,
      ListSubnets cloud name (world st) = (Fail msg, w1) ->
      r = (Some (Errorf ("Failed to retrieve subnet `" ++ name
                           ++ "` in loadbalancer creation: " ++ msg)),
           e, mkSt w1 (trace st ++ [EListSubnets name])))
  /\
  (forall subs w1,
      ListSubnets cloud name (world st) = (Ok subs, w1) ->
      List.length subs <> 1%nat ->
      r = (Some (Errorf ("Unexpected desired subnets for `" ++ name
                           ++ "`.  Expected 1, got " ++ fmt_d (List.length subs))),
           e, mkSt w1 (trace st ++ [EListSubnets name])))
  /\
  (forall sub w1,
      ListSubnets cloud name (world st) = (Ok [sub], w1) ->
      let opts :=
        loadbalancers.mkCreateOpts (ValueOf (Name e)) (subnets.ID sub)
                                   (ValueOf (FlavorID e)) in
      (exists rest,
          trace (snd r)
          = (trace st ++ [EListSubnets name; ECreateLB opts] ++ rest)%list
          /\ count is_create rest = 0%nat)
      /\ (forall msg w2,
             CreateLB cloud opts w1 = (Fail msg, w2) ->
             r = (Some (Errorf ("error creating LB: " ++ msg)), e,
                  mkSt w2 (trace st ++ [EListSubnets name; ECreateLB opts])))
      /\ (forall lb w2,
             CreateLB cloud opts w1 = (Ok lb, w2) ->
             remote_fields_assigned e lb (snd (fst r)))).
Proof.
  intros name r. subst r. unfold RenderOpenstack, bind, call, ret. fold name.
  split; [|split].
  - intros msg w1 H. now rewrite H.
  - intros subs w1 H Hlen. rewrite H.
    destruct subs as [|sub [|sub' rest]]; cbn in Hlen; try reflexivity.
    now contradiction Hlen.
  - intros sub w1 H. rewrite H. cbn [world trace].
    change (match FlavorID e with Some f => f | None => "" end)
      with (ValueOf (FlavorID e)).
    set (opts := loadbalancers.mkCreateOpts (ValueOf (Name e)) (subnets.ID sub)
                   (ValueOf (FlavorID e))).
    destruct (CreateLB cloud opts w1) as [[lb|msg] w2] eqn:Hc; cbn [world trace].
    + cbn [lbSecurityGroup].
      destruct (lbSecurityGroup e) as [sg|] eqn:Hsg.
      * cbn [world trace].
        destruct (UpdatePort cloud (loadbalancers.VipPortID lb)
                    [ValueOf (sgID sg)] w2) as [[p|m] w3];
          cbn [fst snd trace]; (split; [|split]).
        all: try (intros ? ? [=]).
        all: try (subst; unfold remote_fields_assigned, PtrTo; cbn;
                  rewrite ?Hsg; repeat split; reflexivity).
        all: eexists; rewrite <- !app_assoc; cbn [app]; split;
          [reflexivity | reflexivity].
      * cbn [fst snd trace]. split; [|split].
        -- exists []. rewrite <- !app_assoc. cbn [app]. split; reflexivity.
        -- intros ? ? [=].
        -- intros ? ? [=]. subst. unfold remote_fields_assigned, PtrTo. cbn.
           rewrite ?Hsg. repeat split; reflexivity.
    + cbn [fst snd trace]. split; [|split].
      * exists []. rewrite <- !app_assoc. cbn [app]. split; reflexivity.
      * intros ? ? [=]. subst. now rewrite <- !app_assoc.
      * intros ? ? [=].
Qed.

End CreationFacts.

(** Creation on the simulated provider: the subnet is missing, and the
    subnet resolves. *)
Lemma Render_creates_witness :
  RenderOpenstack Sim.cloud None Sim.desired Sim.no_changes
    (Sim.start Sim.orphaned)
  = (Some (Errorf "Unexpected desired subnets for `utility`.  Expected 1, got 0"),
     Sim.desired, mkSt Sim.orphaned [EListSubnets "utility"])
  /\
  remote_fields_assigned Sim.desired Sim.remote_lb
    (snd (fst (RenderOpenstack Sim.cloud None Sim.desired Sim.no_changes
                 (Sim.start Sim.empty)))).
Proof.
  split.
  - apply (proj1 (proj2 (Render_creates Sim.cloud Sim.desired Sim.no_changes
                           (Sim.start Sim.orphaned)))
                 [] Sim.orphaned eq_refl).
    discriminate.
  - destruct (proj2 (proj2 (Render_creates Sim.cloud Sim.desired Sim.no_changes
                              (Sim.start Sim.empty)))
                    (subnets.mkSubnet "net-1" "utility") Sim.empty eq_refl)
      as (_ & _ & Hok).
    exact (Hok Sim.remote_lb _ eq_refl).
Defined.

(** ** The poller *)

Lemma poll_trace_succ (id : string) (n : nat) (b : wait.Backoff) :
  (1 <= n)%nat ->
  poll_trace id (S n) b
  = EGetLoadBalancer id :: ESleep (fst (wait.Step b))
      :: poll_trace id n (snd (wait.Step b)).
Proof.
  destruct n as [|n]; [lia | reflexivity].
Qed.

Lemma poll_trace_fetches (id : string) (n : nat) :
  forall b, count is_status_fetch (poll_trace id n b) = n.
Proof.
  induction n as [|n IH]; intros b; [reflexivity|].
  destruct n as [|n]; [reflexivity|].
  rewrite poll_trace_succ by lia.
  change (count is_status_fetch
            (EGetLoadBalancer id :: ESleep (fst (wait.Step b))
               :: poll_trace id (S n) (snd (wait.Step b))))
    with (S (count is_status_fetch (poll_trace id (S n) (snd (wait.Step b))))).
  now rewrite IH.
Qed.

Lemma poll_trace_sleep (id : string) (n : nat) :
  forall b, total_sleep (poll_trace id n b) = sum_delays (wait.schedule (Nat.pred n) b).
Proof.
  induction n as [|n IH]; intros b; [reflexivity|].
  destruct n as [|n]; [reflexivity|].
  rewrite poll_trace_succ by lia.
  change (total_sleep
            (EGetLoadBalancer id :: ESleep (fst (wait.Step b))
               :: poll_trace id (S n) (snd (wait.Step b))))
    with (0 + (fst (wait.Step b)
               + total_sleep (poll_trace id (S n) (snd (wait.Step b))))).
  rewrite IH. cbn [Nat.pred wait.schedule sum_delays fold_right]. lia.
Qed.

(** One turn of the loop of [wait.ExponentialBackoff]. *)
Lemma loop_S {W L : Type} (condition : L -> M W (L * bool * option error))
    (n : nat) (b : wait.Backoff) (l : L) (s : St W) :
  wait.loop condition (S n) b l s
  = (let (r, s1) := condition l s in
     match r with
     | (l', _, Some err) => ((l', Some err), s1)
     | (l', true, None) => ((l', None), s1)
     | (l', false, None) =>
         match n with
         | O => ((l', Some ErrWaitTimeout), s1)
         | S _ =>
             wait.loop condition n (snd (wait.Step b)) l'
               (mkSt (world s1) (trace s1 ++ [ESleep (fst (wait.Step b))]))
         end
     end).
Proof.
  cbn [wait.loop]. unfold bind, ret, sleep.
  destruct (condition l s) as [[[l' ok] [err|]] s1]; destruct ok;
    try reflexivity.
  destruct n; reflexivity.
Qed.

Section PollerFacts.

Context {W : Type}.
Variable cloud : OpenstackCloud W.
Variable id : string.

Lemma poll_condition_run (l : string) (s : St W) :
  poll_condition cloud id l s
  = (verdict l (outcome cloud id 0 (world s)),
     mkSt (world_after cloud id 1 (world s)) (trace s ++ [EGetLoadBalancer id])).
Proof.
  unfold poll_condition, bind, call, ret, outcome, verdict.
  cbn [world_after].
  destruct (GetLoadBalancer cloud id (world s)) as [[lb|msg] w']; cbn [fst snd];
    [|reflexivity].
  destruct (String.eqb (loadbalancers.ProvisioningStatus lb) activeStatus);
    [reflexivity|].
  destruct (String.eqb (loadbalancers.ProvisioningStatus lb) errorStatus);
    reflexivity.
Qed.

Lemma verdict_in_progress (l : string) o :
  in_progress o = true -> verdict l o = (status_of l o, false, None).
Proof.
  destruct o as [lb|msg]; cbn; [|discriminate].
  intros H. apply andb_prop in H as [H1 H2].
  apply negb_true_iff in H1, H2. now rewrite H1, H2.
Qed.

Lemma status_of_in_progress (a b : string) o :
  in_progress o = true -> status_of a o = status_of b o.
Proof.
  destruct o; [reflexivity | discriminate].
Qed.

(** The loop stops at the first answer that is not in progress. *)
Lemma loop_stops (k : nat) :
  forall n b l (s : St W),
    (k < n)%nat ->
    (forall i, (i < k)%nat -> in_progress (outcome cloud id i (world s)) = true) ->
    in_progress (outcome cloud id k (world s)) = false ->
    exists carried,
      wait.loop (poll_condition cloud id) n b l s
      = (stop_result carried (outcome cloud id k (world s)),
         mkSt (world_after cloud id (S k) (world s))
              (trace s ++ poll_trace id (S k) b)).
Proof.
  induction k as [|k IH]; intros n b l s Hlt Hpre Hstop.
  - destruct n as [|n]; [lia|]. exists l.
    rewrite loop_S, poll_condition_run.
    unfold stop_result, verdict in *. cbn [poll_trace].
    destruct (outcome cloud id 0 (world s)) as [lb|msg]; [|reflexivity].
    cbn [in_progress] in Hstop.
    destruct (String.eqb (loadbalancers.ProvisioningStatus lb) activeStatus);
      [reflexivity|].
    destruct (String.eqb (loadbalancers.ProvisioningStatus lb) errorStatus);
      [reflexivity | discriminate].
  - destruct n as [|[|n]]; [lia | lia |].
    rewrite loop_S, poll_condition_run.
    rewrite verdict_in_progress by (apply Hpre; lia).
    cbn [world trace].
    destruct (IH (S n) (snd (wait.Step b))
                 (status_of l (outcome cloud id 0 (world s)))
                 (mkSt (world_after cloud id 1 (world s))
                       ((trace s ++ [EGetLoadBalancer id])
                          ++ [ESleep (fst (wait.Step b))])))
      as [carried Hrun].
    + lia.
    + intros i Hi. apply (Hpre (S i)). lia.
    + exact Hstop.
    + exists carried. rewrite Hrun. cbn [world trace].
      rewrite (poll_trace_succ id (S k)) by lia.
      rewrite <- !app_assoc. reflexivity.
Qed.

(** The loop gives up after [n] answers in progress. *)
Lemma loop_times_out (n : nat) :
  forall b l (s : St W),
    (1 <= n)%nat ->
    (forall i, (i < n)%nat -> in_progress (outcome cloud id i (world s)) = true) ->
    wait.loop (poll_condition cloud id) n b l s
    = ((status_of l (outcome cloud id (Nat.pred n) (world s)), Some ErrWaitTimeout),
       mkSt (world_after cloud id n (world s)) (trace s ++ poll_trace id n b)).
Proof.
  induction n as [|n IH]; intros b l s Hn Hall; [lia|].
  rewrite loop_S, poll_condition_run.
  rewrite verdict_in_progress by (apply Hall; lia).
  destruct n as [|n]; [reflexivity|].
  cbn [world trace].
  rewrite IH.
  - cbn [world trace]. rewrite (poll_trace_succ id (S n)) by lia.
    rewrite <- !app_assoc. cbn [Nat.pred].
    rewrite (status_of_in_progress _ l); [reflexivity|].
    apply (Hall (S n)). lia.
  - lia.
  - intros i Hi. apply (Hall (S i)). lia.
Qed.

(** Whatever the answers, the calls of the loop are those of [m] attempts,
    for some [m] within the step budget. *)
Lemma loop_trace_shape (n : nat) :
  forall b l (s : St W),
    exists m,
      (m <= n)%nat /\ ((1 <= n)%nat -> (1 <= m)%nat)
      /\ trace (snd (wait.loop (poll_condition cloud id) n b l s))
         = (trace s ++ poll_trace id m b)%list.
Proof.
  induction n as [|n IH]; intros b l s.
  - exists 0%nat. cbn [wait.loop ret snd poll_trace]. rewrite app_nil_r.
    split; [lia|]. split; [lia | reflexivity].
  - rewrite loop_S, poll_condition_run.
    destruct (verdict l (outcome cloud id 0 (world s))) as [[st ok] [err|]].
    + exists 1%nat. split; [lia|]. split; [lia|]. destruct ok; reflexivity.
    + destruct ok.
      * exists 1%nat. split; [lia|]. split; [lia | reflexivity].
      * destruct n as [|n].
        -- exists 1%nat. split; [lia|]. split; [lia | reflexivity].
        -- cbn [world trace].
           destruct (IH (snd (wait.Step b)) st
                        (mkSt (world_after cloud id 1 (world s))
                              ((trace s ++ [EGetLoadBalancer id])
                                 ++ [ESleep (fst (wait.Step b))])))
             as (m & Hle & Hge & Htr).
           exists (S m). split; [lia|]. split; [lia|].
           rewrite Htr. cbn [trace].
           rewrite (poll_trace_succ id m) by (apply Hge; lia).
           rewrite <- !app_assoc. reflexivity.
Qed.

(** The poller is the loop on [poller_backoff], with the timeout of the
    wait package replaced by the poller's own. *)
Lemma wait_unfold (s : St W) :
  waitLoadbalancerActiveProvisioningStatus cloud id s
  = (match fst (wait.loop (poll_condition cloud id) loadbalancerActiveSteps
                          poller_backoff "" s) with
     | (st, Some ErrWaitTimeout) =>
         (st, Some (Errorf "loadbalancer failed to go into ACTIVE provisioning status within allotted time"))
     | (st, err) => (st, err)
     end,
     snd (wait.loop (poll_condition cloud id) loadbalancerActiveSteps
                    poller_backoff "" s)).
Proof.
  unfold waitLoadbalancerActiveProvisioningStatus, wait.ExponentialBackoff, bind, ret.
  fold poller_backoff. cbn [wait.Steps poller_backoff].
  destruct (wait.loop (poll_condition cloud id) loadbalancerActiveSteps
                      poller_backoff "" s) as [[st [[]|]] s'];
    reflexivity.
Qed.

End PollerFacts.

Section PollerClaims.

Context {W : Type}.
Variable cloud : OpenstackCloud W.
Variable id : string.

(** The poller stops with the closure's answer at the first fetch that is
    not in progress, if that fetch is within the step budget. *)
Lemma wait_stops (s : St W) (k : nat) :
  (k < loadbalancerActiveSteps)%nat ->
  (forall i, (i < k)%nat -> in_progress (outcome cloud id i (world s)) = true) ->
  in_progress (outcome cloud id k (world s)) = false ->
  exists carried,
    waitLoadbalancerActiveProvisioningStatus cloud id s
    = (stop_result carried (outcome cloud id k (world s)),
       mkSt (world_after cloud id (S k) (world s))
            (trace s ++ poll_trace id (S k) poller_backoff)).
Proof.
  intros Hk Hpre Hstop. rewrite wait_unfold.
  destruct (loop_stops cloud id k loadbalancerActiveSteps poller_backoff "" s
              Hk Hpre Hstop) as [carried Hrun].
  exists carried. rewrite Hrun. cbn [fst snd]. f_equal.
  unfold stop_result, verdict.
  destruct (outcome cloud id k (world s)) as [lb|msg]; [|reflexivity].
  destruct (String.eqb (loadbalancers.ProvisioningStatus lb) activeStatus);
    [reflexivity|].
  destruct (String.eqb (loadbalancers.ProvisioningStatus lb) errorStatus);
    reflexivity.
Qed.

(** The poller gives up, with its own error, when every fetch of the step
    budget is in progress. *)
Lemma wait_times_out (s : St W) :
  (forall i, (i < loadbalancerActiveSteps)%nat ->
             in_progress (outcome cloud id i (world s)) = true) ->
  waitLoadbalancerActiveProvisioningStatus cloud id s
  = ((status_of "" (outcome cloud id (Nat.pred loadbalancerActiveSteps) (world s)),
      Some (Errorf "loadbalancer failed to go into ACTIVE provisioning status within allotted time")),
     mkSt (world_after cloud id loadbalancerActiveSteps (world s))
          (trace s ++ poll_trace id loadbalancerActiveSteps poller_backoff)).
Proof.
  intros Hall. rewrite wait_unfold.
  rewrite (loop_times_out cloud id loadbalancerActiveSteps poller_backoff "" s)
    by (trivial; unfold loadbalancerActiveSteps; lia).
  reflexivity.
Qed.

(** C5: let the first [k] status fetches be in progress (neither a failed
    fetch nor ACTIVE nor ERROR). If fetch [k+1] is within the budget of 22
    and answers ACTIVE, the poller succeeds; if it answers ERROR, the poller
    fails with the failure error; if the fetch itself fails, the poller
    fails with the error of the fetch; in each case after exactly [k+1]
    fetches. If all 22 fetches are in progress, the poller fails with the
    timeout error after exactly 22 fetches. The three errors differ. *)
Theorem poller_terminal_status (s : St W) (k : nat) :
  (k <= loadbalancerActiveSteps)%nat ->
  (forall i, (i < k)%nat -> in_progress (outcome cloud id i (world s)) = true) ->
  let r := waitLoadbalancerActiveProvisioningStatus cloud id s in
  let o := outcome cloud id k (world s) in
  let failed := Errorf "loadbalancer has gone into ERROR state" in
  let timed_out :=
    Errorf "loadbalancer failed to go into ACTIVE provisioning status within allotted time" in
  let attempts (n : nat) :=
    trace (snd r) = (trace s ++ poll_trace id n poller_backoff)%list
    /\ count is_status_fetch (trace (snd r))
       = (count is_status_fetch (trace s) + n)%nat in
  ((k < loadbalancerActiveSteps)%nat ->
   (forall lb, o = Ok lb ->
               loadbalancers.ProvisioningStatus lb = activeStatus ->
               fst r = (activeStatus, None) /\ attempts (S k))
   /\ (forall lb, o = Ok lb ->
                  loadbalancers.ProvisioningStatus lb = errorStatus ->
                  fst r = (errorStatus, Some failed) /\ attempts (S k))
   /\ (forall msg, o = Fail msg ->
                   snd (fst r) = Some (RemoteError msg) /\ attempts (S k)))
  /\ (k = loadbalancerActiveSteps ->
      snd (fst r) = Some timed_out /\ attempts k)
  /\ (timed_out <> failed
      /\ forall msg, RemoteError msg <> timed_out /\ RemoteError msg <> failed).
Proof.
  intros Hk Hpre r o failed timed_out attempts.
  assert (Hcount : forall n,
             count is_status_fetch (trace s ++ poll_trace id n poller_backoff)
             = (count is_status_fetch (trace s) + n)%nat).
  { intros n. now rewrite count_app, poll_trace_fetches. }
  split; [|split].
  - intros Hlt. split; [|split].
    + intros lb Ho Hst.
      destruct (wait_stops s k Hlt Hpre) as [carried Hrun].
      { fold o. rewrite Ho. cbn. rewrite Hst. reflexivity. }
      subst r attempts. cbn beta. rewrite Hrun. fold o. rewrite Ho.
      unfold stop_result, verdict. rewrite Hst. cbn [fst snd trace].
      split; [reflexivity|]. split; [reflexivity|].
      apply Hcount.
    + intros lb Ho Hst.
      destruct (wait_stops s k Hlt Hpre) as [carried Hrun].
      { fold o. rewrite Ho. cbn. rewrite Hst. reflexivity. }
      subst r attempts. cbn beta. rewrite Hrun. fold o. rewrite Ho.
      unfold stop_result, verdict. rewrite Hst. cbn [fst snd trace].
      split; [reflexivity|]. split; [reflexivity|].
      apply Hcount.
    + intros msg Ho.
      destruct (wait_stops s k Hlt Hpre) as [carried Hrun].
      { fold o. now rewrite Ho. }
      subst r attempts. cbn beta. rewrite Hrun. fold o. rewrite Ho.
      unfold stop_result, verdict. cbn [fst snd trace].
      split; [reflexivity|]. split; [reflexivity|].
      apply Hcount.
  - intros ->. subst r attempts. cbn beta. rewrite (wait_times_out s Hpre).
    cbn [fst snd trace]. split; [reflexivity|]. split; [reflexivity|].
    apply Hcount.
  - subst timed_out failed. split; [discriminate|]. intros msg.
    split; discriminate.
Qed.

End PollerClaims.

(** The poller on scripted answers: [PENDING, PENDING, ACTIVE] succeeds after
    three fetches, [PENDING, ERROR] fails after two, and a load balancer
    that stays pending times out after 22. *)
Lemma poller_terminal_status_witness :
  (let r := waitLoadbalancerActiveProvisioningStatus Sim.cloud "lb"
              (Sim.start (Sim.scripted [Ok "PENDING"; Ok "PENDING"; Ok "ACTIVE"])) in
   fst r = ("ACTIVE", None)
   /\ count is_status_fetch (trace (snd r)) = 3%nat)
  /\
  (let r := waitLoadbalancerActiveProvisioningStatus Sim.cloud "lb"
              (Sim.start (Sim.scripted [Ok "PENDING"; Ok "ERROR"])) in
   fst r = ("ERROR", Some (Errorf "loadbalancer has gone into ERROR state"))
   /\ count is_status_fetch (trace (snd r)) = 2%nat)
  /\
  (let r := waitLoadbalancerActiveProvisioningStatus Sim.cloud "lb"
              (Sim.start (Sim.scripted [])) in
   snd (fst r)
   = Some (Errorf "loadbalancer failed to go into ACTIVE provisioning status within allotted time")
   /\ count is_status_fetch (trace (snd r)) = 22%nat).
Proof.
  split; [|split].
  - assert (Hpre : forall i, (i < 2)%nat ->
               in_progress
                 (outcome Sim.cloud "lb" i
                    (world (Sim.start
                              (Sim.scripted [Ok "PENDING"; Ok "PENDING"; Ok "ACTIVE"]))))
               = true).
    { intros i Hi. destruct i as [|[|i]]; [reflexivity | reflexivity | lia]. }
    destruct (poller_terminal_status Sim.cloud "lb" _ 2
                ltac:(unfold loadbalancerActiveSteps; lia) Hpre)
      as [Hterm _].
    destruct (Hterm ltac:(unfold loadbalancerActiveSteps; lia)) as [Hactive _].
    destruct (Hactive (loadbalancers.mkLoadBalancer "lb" "" "" "" "" "" "ACTIVE")
                eq_refl eq_refl) as [Hres [_ Hcnt]].
    split; [exact Hres | exact Hcnt].
  - assert (Hpre : forall i, (i < 1)%nat ->
               in_progress
                 (outcome Sim.cloud "lb" i
                    (world (Sim.start (Sim.scripted [Ok "PENDING"; Ok "ERROR"]))))
               = true).
    { intros i Hi. destruct i as [|i]; [reflexivity | lia]. }
    destruct (poller_terminal_status Sim.cloud "lb" _ 1
                ltac:(unfold loadbalancerActiveSteps; lia) Hpre)
      as [Hterm _].
    destruct (Hterm ltac:(unfold loadbalancerActiveSteps; lia)) as [_ [Herror _]].
    destruct (Herror (loadbalancers.mkLoadBalancer "lb" "" "" "" "" "" "ERROR")
                eq_refl eq_refl) as [Hres [_ Hcnt]].
    split; [exact Hres | exact Hcnt].
  - assert (Hpre : forall i, (i < 22)%nat ->
               in_progress
                 (outcome Sim.cloud "lb" i (world (Sim.start (Sim.scripted []))))
               = true).
    { intros i Hi. do 22 (destruct i as [|i]; [reflexivity|]). lia. }
    destruct (poller_terminal_status Sim.cloud "lb" _ 22
                ltac:(unfold loadbalancerActiveSteps; lia) Hpre)
      as [_ [Hout _]].
    destruct (Hout eq_refl) as [Hres [_ Hcnt]].
    split; [exact Hres | exact Hcnt].
Defined.

(** ** The wait budget *)

(** The sleeps of [m] attempts, for every [m] within the budget, add up to
    at most those of 22 attempts. *)
Lemma schedule_sums_bounded (m : nat) :
  (m <= loadbalancerActiveSteps)%nat ->
  sum_delays (wait.schedule (Nat.pred m) poller_backoff) <= 225025599499.
Proof.
  intros Hm.
  assert (H : forallb
                (fun n => sum_delays (wait.schedule (Nat.pred n) poller_backoff)
                          <=? 225025599499)
                (seq 0 23) = true) by (vm_compute; reflexivity).
  rewrite forallb_forall in H. apply Z.leb_le. apply H. apply in_seq.
  unfold loadbalancerActiveSteps in Hm. lia.
Qed.

(** The poller never sleeps longer, in total, than the sleeps of 22
    attempts. *)
Lemma wait_total_sleep_bounded {W : Type} (cloud : OpenstackCloud W)
    (id : string) (s : St W) :
  total_sleep (trace (snd (waitLoadbalancerActiveProvisioningStatus cloud id s)))
  - total_sleep (trace s) <= 225025599499.
Proof.
  rewrite wait_unfold. cbn [snd].
  destruct (loop_trace_shape cloud id loadbalancerActiveSteps poller_backoff "" s)
    as (m & Hle & _ & Htr).
  rewrite Htr, total_sleep_app, poll_trace_sleep.
  pose proof (schedule_sums_bounded m Hle). lia.
Qed.

(** C9 (evaluation): the schedule starts at 1 s, grows by the factor 1.2 and
    has 22 steps. The poller sleeps between attempts only, so at most 21
    times: 225.025599499 s in total, reached when the load balancer stays
    pending. That is below five minutes; the 326 s of the source comment is
    the sum of 23 delays of this schedule. *)
Theorem poller_wait_bound :
  loadbalancerActiveInitDelay = 1000000000
  /\ loadbalancerActiveFactor = (12 / 10)%float
  /\ loadbalancerActiveSteps = 22%nat
  /\ (forall (W : Type) (cloud : OpenstackCloud W) (id : string) (s : St W),
         total_sleep
           (trace (snd (waitLoadbalancerActiveProvisioningStatus cloud id s)))
         - total_sleep (trace s) <= 225025599499)
  /\ (let r := waitLoadbalancerActiveProvisioningStatus Sim.cloud "lb"
                 (Sim.start (Sim.scripted [])) in
      snd (fst r)
      = Some (Errorf "loadbalancer failed to go into ACTIVE provisioning status within allotted time")
      /\ count is_status_fetch (trace (snd r)) = 22%nat
      /\ total_sleep (trace (snd r)) = 225025599499)
  /\ 225025599499 < 5 * 60 * 1000000000
  /\ sum_delays (wait.schedule 22 poller_backoff) = 271030719394
  /\ sum_delays (wait.schedule 23 poller_backoff) = 326236863268.
Proof.
  split; [reflexivity|]. split; [vm_compute; reflexivity|].
  split; [reflexivity|]. split; [intros; apply wait_total_sleep_bounded|].
  split; [vm_compute; repeat split; reflexivity|].
  split; [lia|]. split; vm_compute; reflexivity.
Qed.

(** ** A reconciliation scenario

    A creation whose port update fails leaves the load balancer without its
    security group; discovery then finds the load balancer, the next
    convergence repairs the port without creating anything, and a further
    convergence does nothing. *)
Example self_healing_scenario :
  let r1 := RenderOpenstack Sim.cloud None Sim.desired Sim.no_changes
              (Sim.start (Sim.update_fails Sim.empty)) in
  let f := Find Sim.cloud (snd (fst r1)) (Sim.start (world (snd r1))) in
  let r2 := RenderOpenstack Sim.cloud (Some Sim.actual) (snd (fst f))
              Sim.no_changes (Sim.start (world (snd f))) in
  let r3 := RenderOpenstack Sim.cloud (Some Sim.actual) (snd (fst r2))
              Sim.no_changes (Sim.start (world (snd r2))) in
  fst (fst r1)
  = Some (Errorf "Failed to update security group for port port-api.k8s.local: Service Unavailable")
  /\ world (snd r1) = Sim.half_created
  /\ fst (fst f) = Ok (Some Sim.actual)
  /\ fst (fst r2) = None
  /\ trace (snd r2)
     = [EGetPort "port-api.k8s.local"; EUpdatePort "port-api.k8s.local" ["sg-1"]]
  /\ world (snd r2) = Sim.converged
  /\ fst (fst r3) = None
  /\ trace (snd r3) = [EGetPort "port-api.k8s.local"]
  /\ world (snd r3) = Sim.converged.
Proof.
  vm_compute. repeat split; reflexivity.
Qed.

(** * Further properties of the task *)

(** ** Dependencies *)

Lemma GetDependencies_from (tasks : list (string * CloudupTask)) :
  forall deps,
    fold_left
      (fun (deps : list CloudupTask) (entry : string * CloudupTask) =>
         let task := snd entry in
         let deps1 := if is_Subnet task then (deps ++ [task])%list else deps in
         if is_SecurityGroup task then (deps1 ++ [task])%list else deps1)
      tasks deps
    = (deps ++ filter (fun t => is_Subnet t || is_SecurityGroup t) (map snd tasks))%list.
Proof.
  induction tasks as [|[key task] tasks IH]; intros deps; cbn [fold_left map filter snd].
  - now rewrite app_nil_r.
  - rewrite IH. destruct task; cbn [is_Subnet is_SecurityGroup orb];
      now rewrite <- ?app_assoc.
Qed.

Lemma GetDependencies_filter (e : LB) (tasks : list (string * CloudupTask)) :
  GetDependencies e tasks
  = filter (fun t => is_Subnet t || is_SecurityGroup t) (map snd tasks).
Proof.
  unfold GetDependencies. now rewrite GetDependencies_from.
Qed.

(** X1: the dependencies of a load balancer are the subnet tasks and the
    security-group tasks of the map, each as often as the map holds it and
    in the order of the visit; load balancers and tasks of other types are
    never dependencies; the receiver plays no part. *)
Theorem GetDependencies_selects (e : LB) (tasks : list (string * CloudupTask)) :
  GetDependencies e tasks
  = filter (fun t => is_Subnet t || is_SecurityGroup t) (map snd tasks)
  /\ (forall task,
         In task (GetDependencies e tasks)
         <-> (exists key, In (key, task) tasks)
             /\ (is_Subnet task = true \/ is_SecurityGroup task = true))
  /\ (forall l, ~ In (TaskLB l) (GetDependencies e tasks))
  /\ (forall kind, ~ In (TaskOther kind) (GetDependencies e tasks))
  /\ (forall e', GetDependencies e' tasks = GetDependencies e tasks).
Proof.
  assert (Heq : forall e0, GetDependencies e0 tasks
                = filter (fun t => is_Subnet t || is_SecurityGroup t) (map snd tasks))
    by (intros e0; apply GetDependencies_filter).
  split; [apply Heq|]. split; [|split; [|split]].
  - intros task. rewrite Heq, filter_In, in_map_iff, orb_true_iff. split.
    + intros [[[key t] [Ht Hin]] Hk]. cbn in Ht. subst t. split; [|exact Hk].
      now exists key.
    + intros [[key Hin] Hk]. split; [|exact Hk]. now exists (key, task).
  - intros l. rewrite Heq, filter_In. intros [_ H]. discriminate.
  - intros kind. rewrite Heq, filter_In. intros [_ H]. discriminate.
  - intros e'. now rewrite !Heq.
Qed.

(** X2: the order in which the map is visited only changes the order of the
    dependencies: two visits of the same entries give the same dependencies
    up to a permutation, and as many of them. *)
Theorem GetDependencies_order (e : LB) (tasks tasks' : list (string * CloudupTask)) :
  Permutation tasks tasks' ->
  Permutation (GetDependencies e tasks) (GetDependencies e tasks')
  /\ List.length (GetDependencies e tasks) = List.length (GetDependencies e tasks').
Proof.
  intros Hperm.
  assert (H : Permutation (GetDependencies e tasks) (GetDependencies e tasks')).
  { rewrite !GetDependencies_filter.
    induction Hperm as [|x l l' _ IH|x y l|l l' l'' _ IH1 _ IH2].
    - constructor.
    - cbn [map filter]. destruct (is_Subnet (snd x) || is_SecurityGroup (snd x));
        [now constructor | exact IH].
    - cbn [map filter].
      destruct (is_Subnet (snd x) || is_SecurityGroup (snd x)),
               (is_Subnet (snd y) || is_SecurityGroup (snd y));
        try reflexivity. constructor.
    - now transitivity
            (filter (fun t => is_Subnet t || is_SecurityGroup t) (map snd l')). }
  split; [exact H | now apply Permutation_length].
Qed.

(** Two visits of a map that holds a subnet, a load balancer and a security
    group. *)
Lemma GetDependencies_order_witness :
  Permutation
    (GetDependencies Sim.desired
       [("Subnet/utility", TaskSubnet (mkSubnetTask (Some "net-1") (Some "utility")));
        ("LB/api", TaskLB Sim.desired);
        ("SecurityGroup/api",
         TaskSecurityGroup (mkSecurityGroup (Some "sg-1") (Some "api.k8s.local")))])
    (GetDependencies Sim.desired
       [("LB/api", TaskLB Sim.desired);
        ("Subnet/utility", TaskSubnet (mkSubnetTask (Some "net-1") (Some "utility")));
        ("SecurityGroup/api",
         TaskSecurityGroup (mkSecurityGroup (Some "sg-1") (Some "api.k8s.local")))]).
Proof.
  apply (proj1 (GetDependencies_order Sim.desired _ _ (perm_swap _ _ _))).
Defined.

(** ** Discovery never writes *)

Section FindFrame.

Context {W : Type}.
Variable cloud : OpenstackCloud W.

(** Case analysis on every answer the provider can give to [Find]. *)
Ltac find_step s :=
  cbn [world trace fst snd ExtractLoadBalancers ValueOf sgName];
  match goal with
  | |- context [ListLoadBalancers cloud ?n ?w] =>
      destruct (ListLoadBalancers cloud n w) as [[[[|? [|? ?]]|?]|?] ?] eqn:Hlist
  | |- context [GetSubnet cloud ?n ?w] =>
      destruct (GetSubnet cloud n w) as [[?|?] ?] eqn:Hsub
  | |- context [match lbSecurityGroup s with _ => _ end] =>
      destruct (lbSecurityGroup s) as [?|] eqn:Hsg
  | |- context [getSecurityGroupByName cloud ?a ?w] =>
      destruct (getSecurityGroupByName cloud a w) as [[?|?] ?] eqn:Hlook
  end.

Ltac find_cases s st :=
  unfold Find, NewLBTaskFromCloud, bind, call, ret;
  destruct (Name s) as [name|] eqn:Hname;
  repeat find_step s;
  cbn [fst snd world trace ExtractLoadBalancers ValueOf sgName
       ID Name Subnet VipSubnet lbLifecycle PortID
       lbSecurityGroup Provider FlavorID].

(** X3: whatever the provider answers, discovery issues no create and no
    port update, keeps the receiver's name, subnet, security group and
    lifecycle, and leaves the receiver wholly untouched unless it returns a
    descriptor. *)
Theorem Find_read_only (s : LB) (st : St W) :
  let r := Find cloud s st in
  let s' := snd (fst r) in
  count is_mutation (trace (snd r)) = count is_mutation (trace st)
  /\ Name s' = Name s
  /\ Subnet s' = Subnet s
  /\ lbSecurityGroup s' = lbSecurityGroup s
  /\ lbLifecycle s' = lbLifecycle s
  /\ ((forall actual, fst (fst r) <> Ok (Some actual)) -> s' = s).
Proof.
  cbv zeta. find_cases s st;
    rewrite ?count_app; cbn [count filter is_mutation List.length];
    rewrite ?Hname, ?Hsg; repeat split; try lia;
    try (intros H; exfalso; eapply H; reflexivity).
Qed.

(** X4: when discovery returns a descriptor, the receiver carries the same
    five remote-assigned fields as the descriptor, all of them set, so both
    report the same remote identifier; the descriptor has the receiver's
    lifecycle, a name and a subnet name; and it has no security group when
    the receiver has none. *)
Theorem Find_descriptor_consistent (s : LB) (st : St W) (actual s' : LB)
    (st' : St W) :
  Find cloud s st = (Ok (Some actual), s', st') ->
  CompareWithID s' = CompareWithID actual
  /\ CompareWithID actual <> None
  /\ PortID s' = PortID actual /\ PortID actual <> None
  /\ VipSubnet s' = VipSubnet actual /\ VipSubnet actual <> None
  /\ Provider s' = Provider actual /\ Provider actual <> None
  /\ FlavorID s' = FlavorID actual /\ FlavorID actual <> None
  /\ lbLifecycle actual = lbLifecycle s
  /\ Name actual <> None /\ Subnet actual <> None
  /\ (lbSecurityGroup s = None -> lbSecurityGroup actual = None).
Proof.
  revert s' st'. unfold CompareWithID. find_cases s st; intros s' st' [=]; subst;
    cbn [ID Name Subnet VipSubnet lbLifecycle PortID lbSecurityGroup Provider
         FlavorID PtrTo];
    repeat split; try discriminate; try congruence.
Qed.


End FindFrame.

(** Discovery of the converged load balancer. *)
Lemma Find_descriptor_consistent_witness :
  CompareWithID
    (snd (fst (Find Sim.cloud Sim.desired (Sim.start Sim.converged))))
  = CompareWithID Sim.actual
  /\ CompareWithID Sim.actual <> None.
Proof.
  destruct (Find_descriptor_consistent Sim.cloud Sim.desired
              (Sim.start Sim.converged) Sim.actual
              (snd (fst (Find Sim.cloud Sim.desired (Sim.start Sim.converged))))
              (snd (Find Sim.cloud Sim.desired (Sim.start Sim.converged)))
              eq_refl)
    as (Hid & Hset & _).
  split; [exact Hid | exact Hset].
Defined.


(** ** Convergence: what every call does and never does *)

Lemma security_groups_written_app (l1 l2 : list Event) :
  security_groups_written (l1 ++ l2)
  = (security_groups_written l1 ++ security_groups_written l2)%list.
Proof.
  unfold security_groups_written. apply flat_map_app.
Qed.

Section RenderFrame.

Context {W : Type}.
Variable cloud : OpenstackCloud W.

(** Case analysis on every answer the provider can give to
    [RenderOpenstack]. *)
Ltac render_step e :=
  cbn [world trace fst snd ValueOf lbSecurityGroup];
  match goal with
  | |- context [ListSubnets cloud ?n ?w] =>
      destruct (ListSubnets cloud n w) as [[[|? [|? ?]]|?] ?] eqn:Hsubs
  | |- context [CreateLB cloud ?o ?w] =>
      destruct (CreateLB cloud o w) as [[?|?] ?] eqn:Hcreate
  | |- context [GetPort cloud ?n ?w] =>
      destruct (GetPort cloud n w) as [[?|?] ?] eqn:Hport
  | |- context [match lbSecurityGroup e with _ => _ end] =>
      destruct (lbSecurityGroup e) as [?|] eqn:Hsg
  | |- context [if port_needs_repair ?p ?i then _ else _] =>
      destruct (port_needs_repair p i) eqn:Hneed
  | |- context [UpdatePort cloud ?n ?l ?w] =>
      destruct (UpdatePort cloud n l w) as [[?|?] ?] eqn:Hupd
  end.

Ltac render_cases a e :=
  unfold RenderOpenstack, bind, call, ret;
  destruct a as [act|];
  repeat render_step e;
  cbn [world trace fst snd ValueOf lbSecurityGroup].

(** X7: in every call, whatever the provider answers, convergence issues at
    most one create and at most one port update; a port update writes the
    list holding just the desired security group, so none is issued when no
    group is desired; with an actual task nothing is created and the
    desired task is not modified; without one no port is fetched. *)
Theorem Render_call_budget (a : option LB) (e changes : LB) (st : St W) :
  let r := RenderOpenstack cloud a e changes st in
  exists evs,
    trace (snd r) = (trace st ++ evs)%list
    /\ (count is_create evs <= 1)%nat
    /\ (count is_port_update evs <= 1)%nat
    /\ (forall sgs, In sgs (security_groups_written evs) ->
                    exists sg, lbSecurityGroup e = Some sg
                               /\ sgs = [ValueOf (sgID sg)])
    /\ (lbSecurityGroup e = None -> count is_port_update evs = 0%nat)
    /\ (a <> None -> count is_create evs = 0%nat /\ snd (fst r) = e)
    /\ (a = None -> count is_port_fetch evs = 0%nat)
    /\ (count is_create evs = 0%nat -> snd (fst r) = e).
Proof.
  cbv zeta. render_cases a e; rewrite <- ?app_assoc; cbn [app];
    eexists; (split; [reflexivity|]);
    cbn [count filter is_create is_port_update is_port_fetch List.length
         security_groups_written flat_map app In];
    repeat split; try lia; try discriminate; try congruence;
    try (intros sgs [<- | []]; eexists; split; reflexivity);
    try (intros sgs []).
Qed.

(** X6: once the subnet is resolved and the create has succeeded, the
    desired task reports the new identifier in every case. Without a desired
    security group convergence is done; with one it issues exactly one more
    call, the update of the new load balancer's port to the list holding
    that group; if that update fails, convergence fails with an error naming
    the port while the desired task keeps the remote-assigned fields. *)
Theorem Render_attaches_security_group (e changes : LB) (st : St W)
    (sub : subnets.Subnet) (w1 : W) (lb : loadbalancers.LoadBalancer) (w2 : W) :
  let name := ValueOf (Subnet e) in
  let opts :=
    loadbalancers.mkCreateOpts (ValueOf (Name e)) (subnets.ID sub)
                               (ValueOf (FlavorID e)) in
  let pid := loadbalancers.VipPortID lb in
  ListSubnets cloud name (world st) = (Ok [sub], w1) ->
  CreateLB cloud opts w1 = (Ok lb, w2) ->
  let r := RenderOpenstack cloud None e changes st in
  let created := (trace st ++ [EListSubnets name; ECreateLB opts])%list in
  CompareWithID (snd (fst r)) = Some (loadbalancers.ID lb)
  /\ (lbSecurityGroup e = None ->
      fst (fst r) = None /\ snd r = mkSt w2 created)
  /\ (forall sg,
         lbSecurityGroup e = Some sg ->
         let upd := EUpdatePort pid [ValueOf (sgID sg)] in
         trace (snd r) = (created ++ [upd])%list
         /\ (forall p w3,
                UpdatePort cloud pid [ValueOf (sgID sg)] w2 = (Ok p, w3) ->
                fst (fst r) = None /\ world (snd r) = w3)
         /\ (forall msg w3,
                UpdatePort cloud pid [ValueOf (sgID sg)] w2 = (Fail msg, w3) ->
                fst (fst r)
                = Some (Errorf ("Failed to update security group for port "
                                  ++ pid ++ ": " ++ msg))
                /\ remote_fields_assigned e lb (snd (fst r)))).
Proof.
  intros name opts pid Hsubs Hcreate r created. subst r created.
  unfold RenderOpenstack, bind, call, ret. fold name. rewrite Hsubs.
  cbn [world trace].
  change (match FlavorID e with Some f => f | None => "" end)
    with (ValueOf (FlavorID e)).
  fold opts. rewrite Hcreate. cbn [world trace lbSecurityGroup].
  destruct (lbSecurityGroup e) as [sg|] eqn:Hsg.
  - cbn [world trace]. fold pid.
    destruct (UpdatePort cloud pid [ValueOf (sgID sg)] w2) as [[p|msg] w3] eqn:Hupd;
      cbn [fst snd world trace]; (split; [reflexivity|]);
      (split; [discriminate|]); intros sg' [= <-];
      rewrite <- !app_assoc; cbn [app]; (split; [reflexivity|]).
    + split; intros ? ? H; unfold pid in *; rewrite Hupd in H; inversion H; subst.
      split; reflexivity.
    + split; intros ? ? H; unfold pid in *; rewrite Hupd in H; inversion H; subst.
      split; [reflexivity|].
      unfold remote_fields_assigned, PtrTo; cbn. rewrite ?Hsg.
      repeat split; reflexivity.
  - cbn [fst snd world trace]. split; [reflexivity|]. split.
    + intros _. rewrite <- !app_assoc. split; reflexivity.
    + intros sg [=].
Qed.

End RenderFrame.

(** A creation whose port update fails on the simulated provider. *)
Lemma Render_attaches_security_group_witness :
  let r := RenderOpenstack Sim.cloud None Sim.desired Sim.no_changes
             (Sim.start (Sim.update_fails Sim.empty)) in
  fst (fst r)
  = Some (Errorf "Failed to update security group for port port-api.k8s.local: Service Unavailable")
  /\ remote_fields_assigned Sim.desired Sim.remote_lb (snd (fst r)).
Proof.
  destruct (Render_attaches_security_group Sim.cloud Sim.desired Sim.no_changes
              (Sim.start (Sim.update_fails Sim.empty))
              (subnets.mkSubnet "net-1" "utility") (Sim.update_fails Sim.empty)
              Sim.remote_lb _ eq_refl eq_refl)
    as (_ & _ & Hsg).
  destruct (Hsg (mkSecurityGroup (Some "sg-1") (Some "api.k8s.local")) eq_refl)
    as (_ & _ & Hfail).
  exact (Hfail "Service Unavailable" Sim.half_created eq_refl).
Defined.

(** ** Convergence: passes in sequence *)

Section RenderSequences.

Context {W : Type}.
Variable cloud : OpenstackCloud W.

(** The repair path, by the answers of the provider. *)
Lemma repair_run (act e changes : LB) (st : St W) :
  let pid := ValueOf (PortID act) in
  RenderOpenstack cloud (Some act) e changes st
  = (let (p, w1) := GetPort cloud pid (world st) in
     match p with
     | Fail msg =>
         (Some (Errorf ("Failed to get port with id " ++ pid ++ ": " ++ msg)),
          e, mkSt w1 (trace st ++ [EGetPort pid]))
     | Ok port =>
         match lbSecurityGroup e with
         | Some sg =>
             if port_needs_repair port (ValueOf (sgID sg)) then
               let (u, w2) := UpdatePort cloud pid [ValueOf (sgID sg)] w1 in
               (match u with
                | Ok _ => None
                | Fail msg =>
                    Some (Errorf ("Failed to update security group for port "
                                    ++ pid ++ ": " ++ msg))
                end, e,
                mkSt w2 (trace st ++ [EGetPort pid;
                                      EUpdatePort pid [ValueOf (sgID sg)]]))
             else (None, e, mkSt w1 (trace st ++ [EGetPort pid]))
         | None => (None, e, mkSt w1 (trace st ++ [EGetPort pid]))
         end
     end).
Proof.
  intros pid. unfold RenderOpenstack, bind, call, ret. fold pid.
  destruct (GetPort cloud pid (world st)) as [[port|msg] w1]; [|reflexivity].
  cbn [world trace]. destruct (lbSecurityGroup e) as [sg|]; [|reflexivity].
  destruct (port_needs_repair port (ValueOf (sgID sg))); [|reflexivity].
  cbn [world trace].
  destruct (UpdatePort cloud pid [ValueOf (sgID sg)] w1) as [[p|msg] w2];
    now rewrite <- app_assoc.
Qed.

(** X11: let the provider read back what it was told: a port fetched once is
    fetched again unchanged, and a port fetched after a successful update
    carries the list written. Then a convergence on an actual task that
    returns no error is followed by a convergence that returns no error and
    only fetches the port: the second pass changes nothing. *)
Theorem Render_second_pass_is_noop (act e changes : LB) (st : St W) :
  let pid := ValueOf (PortID act) in
  let r1 := RenderOpenstack cloud (Some act) e changes st in
  let r2 := RenderOpenstack cloud (Some act) (snd (fst r1)) changes (snd r1) in
  (forall port w1,
      GetPort cloud pid (world st) = (Ok port, w1) ->
      exists w2, GetPort cloud pid w1 = (Ok port, w2)) ->
  (forall port w1 sgs p w2,
      GetPort cloud pid (world st) = (Ok port, w1) ->
      UpdatePort cloud pid sgs w1 = (Ok p, w2) ->
      exists port' w3,
        GetPort cloud pid w2 = (Ok port', w3)
        /\ ports.SecurityGroups port' = sgs) ->
  fst (fst r1) = None ->
  fst (fst r2) = None
  /\ snd (fst r2) = e
  /\ trace (snd r2) = (trace (snd r1) ++ [EGetPort pid])%list
  /\ count is_mutation (trace (snd r2)) = count is_mutation (trace (snd r1)).
Proof.
  intros pid r1 r2 Hstable Hreadback Hok. subst r2.
  assert (Hnoop : forall (s1 : St W) port w,
             GetPort cloud pid (world s1) = (Ok port, w) ->
             (forall sg, lbSecurityGroup e = Some sg ->
                         port_needs_repair port (ValueOf (sgID sg)) = false) ->
             let r := RenderOpenstack cloud (Some act) e changes s1 in
             fst (fst r) = None /\ snd (fst r) = e
             /\ trace (snd r) = (trace s1 ++ [EGetPort pid])%list
             /\ count is_mutation (trace (snd r)) = count is_mutation (trace s1)).
  { intros s1 port w Hp Hsg. cbv zeta. rewrite repair_run. fold pid. rewrite Hp.
    destruct (lbSecurityGroup e) as [sg|].
    - rewrite (Hsg sg eq_refl). cbn [fst snd trace]. rewrite count_app.
      cbn. repeat split; lia.
    - cbn [fst snd trace]. rewrite count_app. cbn. repeat split; lia. }
  revert Hok. subst r1. rewrite repair_run. fold pid.
  destruct (GetPort cloud pid (world st)) as [[port|msg] w1] eqn:Hp;
    [|discriminate].
  destruct (lbSecurityGroup e) as [sg|] eqn:Hsg.
  - destruct (port_needs_repair port (ValueOf (sgID sg))) eqn:Hneed.
    + destruct (UpdatePort cloud pid [ValueOf (sgID sg)] w1) as [[p|msg] w2] eqn:Hu;
        [|discriminate].
      cbn [fst snd]. intros _.
      destruct (Hreadback port w1 [ValueOf (sgID sg)] p w2 eq_refl Hu)
        as (port' & w3 & Hp' & Hsgs).
      apply (Hnoop (mkSt w2 _) port' w3 Hp').
      intros sg' [= <-]. unfold port_needs_repair. rewrite Hsgs.
      now rewrite String.eqb_refl.
    + cbn [fst snd]. intros _.
      destruct (Hstable port w1 eq_refl) as [w2 Hp'].
      apply (Hnoop (mkSt w1 _) port w2 Hp').
      now intros sg' [= <-].
  - cbn [fst snd]. intros _.
    destruct (Hstable port w1 eq_refl) as [w2 Hp'].
    apply (Hnoop (mkSt w1 _) port w2 Hp'). intros sg' [=].
Qed.

End RenderSequences.

(** Repair of the half-created load balancer, then a second pass. *)
Lemma Render_second_pass_is_noop_witness :
  let r1 := RenderOpenstack Sim.cloud (Some Sim.actual) Sim.desired
              Sim.no_changes (Sim.start Sim.half_created) in
  let r2 := RenderOpenstack Sim.cloud (Some Sim.actual) (snd (fst r1))
              Sim.no_changes (snd r1) in
  fst (fst r2) = None
  /\ trace (snd r2)
     = [EGetPort "port-api.k8s.local";
        EUpdatePort "port-api.k8s.local" ["sg-1"];
        EGetPort "port-api.k8s.local"].
Proof.
  destruct (Render_second_pass_is_noop Sim.cloud Sim.actual Sim.desired
              Sim.no_changes (Sim.start Sim.half_created))
    as (Hok & _ & Htr & _).
  - intros port w1 H. cbn in H. injection H as <- <-.
    now exists Sim.half_created.
  - intros port w1 sgs p w2 H Hu. cbn in H. injection H as <- <-.
    cbn in Hu. injection Hu as <- <-.
    exists (ports.mkPort "port-api.k8s.local" sgs). eexists.
    split; reflexivity.
  - reflexivity.
  - split; [exact Hok | exact Htr].
Defined.

Section RenderRetry.

Context {W : Type}.
Variable cloud : OpenstackCloud W.

(** X12: let a creation have created the load balancer [lb] and failed to
    attach the desired security group. The desired task it leaves behind
    still asks for that group and names the port of [lb]; so a later
    convergence, given an actual task with that port and finding the port
    without security groups, issues the very update that failed, on the same
    port with the same list, creates nothing, and succeeds when the update
    does. *)
Theorem Render_retries_failed_attachment (e changes act : LB) (st st2 : St W)
    (sub : subnets.Subnet) (w1 : W) (lb : loadbalancers.LoadBalancer) (w2 : W)
    (sg : SecurityGroup) (msg : string) (w3 : W) (port : ports.Port) (w4 : W) :
  let opts :=
    loadbalancers.mkCreateOpts (ValueOf (Name e)) (subnets.ID sub)
                               (ValueOf (FlavorID e)) in
  let pid := loadbalancers.VipPortID lb in
  let upd := EUpdatePort pid [ValueOf (sgID sg)] in
  let r1 := RenderOpenstack cloud None e changes st in
  let e1 := snd (fst r1) in
  let r2 := RenderOpenstack cloud (Some act) e1 changes st2 in
  ListSubnets cloud (ValueOf (Subnet e)) (world st) = (Ok [sub], w1) ->
  CreateLB cloud opts w1 = (Ok lb, w2) ->
  lbSecurityGroup e = Some sg ->
  UpdatePort cloud pid [ValueOf (sgID sg)] w2 = (Fail msg, w3) ->
  PortID act = PortID e1 ->
  GetPort cloud pid (world st2) = (Ok port, w4) ->
  ports.SecurityGroups port = [] ->
  fst (fst r1) <> None
  /\ (exists before, trace (snd r1) = (before ++ [upd])%list)
  /\ trace (snd r2) = (trace st2 ++ [EGetPort pid; upd])%list
  /\ count is_create (trace (snd r2)) = count is_create (trace st2)
  /\ snd (fst r2) = e1
  /\ (forall p w5,
         UpdatePort cloud pid [ValueOf (sgID sg)] w4 = (Ok p, w5) ->
         fst (fst r2) = None).
Proof.
  intros opts pid upd r1 e1 r2 Hsubs Hcreate Hsg Hfail Hact Hport Hempty.
  assert (Hr1 : r1 = (Some (Errorf ("Failed to update security group for port "
                                      ++ pid ++ ": " ++ msg)),
                      {| ID := PtrTo (loadbalancers.ID lb);
                         Name := Name e;
                         Subnet := Subnet e;
                         VipSubnet := PtrTo (loadbalancers.VipSubnetID lb);
                         lbLifecycle := lbLifecycle e;
                         PortID := PtrTo pid;
                         lbSecurityGroup := lbSecurityGroup e;
                         Provider := PtrTo (loadbalancers.Provider lb);
                         FlavorID := PtrTo (loadbalancers.FlavorID lb) |},
                      mkSt w3 ((trace st ++ [EListSubnets (ValueOf (Subnet e));
                                             ECreateLB opts]) ++ [upd]))).
  { subst r1. unfold RenderOpenstack, bind, call, ret. rewrite Hsubs.
    cbn [world trace].
    change (match FlavorID e with Some f => f | None => "" end)
      with (ValueOf (FlavorID e)).
    fold opts. rewrite Hcreate. cbn [world trace lbSecurityGroup].
    rewrite Hsg. cbn [world trace]. fold pid. rewrite Hfail.
    rewrite <- !app_assoc. reflexivity. }
  assert (He1 : lbSecurityGroup e1 = Some sg /\ ValueOf (PortID act) = pid).
  { subst e1. rewrite Hact, Hr1. cbn. now rewrite Hsg. }
  destruct He1 as [Hsg1 Hpid].
  assert (Hr2 : r2 = (let (u, w5) := UpdatePort cloud pid [ValueOf (sgID sg)] w4 in
                      (match u with
                       | Ok _ => None
                       | Fail m =>
                           Some (Errorf ("Failed to update security group for port "
                                           ++ pid ++ ": " ++ m))
                       end, e1,
                       mkSt w5 (trace st2 ++ [EGetPort pid; upd])))).
  { subst r2. rewrite repair_run. rewrite Hpid, Hport, Hsg1.
    unfold port_needs_repair. rewrite Hempty. reflexivity. }
  split; [rewrite Hr1; discriminate|].
  split; [rewrite Hr1; eexists; reflexivity|].
  rewrite Hr2.
  destruct (UpdatePort cloud pid [ValueOf (sgID sg)] w4) as [[p|m] w5];
    cbn [fst snd trace]; rewrite !count_app; unfold upd;
    cbn [count filter is_create List.length];
    (split; [reflexivity|]); (split; [lia|]); (split; [reflexivity|]);
    intros ? ? [=]; reflexivity.
Qed.

End RenderRetry.

(** The creation with a failing port update, then the repair. *)
Lemma Render_retries_failed_attachment_witness :
  let r1 := RenderOpenstack Sim.cloud None Sim.desired Sim.no_changes
              (Sim.start (Sim.update_fails Sim.empty)) in
  let r2 := RenderOpenstack Sim.cloud (Some Sim.actual) (snd (fst r1))
              Sim.no_changes (Sim.start (world (snd r1))) in
  fst (fst r1) <> None
  /\ trace (snd r2)
     = [EGetPort "port-api.k8s.local"; EUpdatePort "port-api.k8s.local" ["sg-1"]]
  /\ fst (fst r2) = None.
Proof.
  destruct (Render_retries_failed_attachment Sim.cloud Sim.desired Sim.no_changes
              Sim.actual (Sim.start (Sim.update_fails Sim.empty))
              (Sim.start Sim.half_created)
              (subnets.mkSubnet "net-1" "utility") (Sim.update_fails Sim.empty)
              Sim.remote_lb _
              (mkSecurityGroup (Some "sg-1") (Some "api.k8s.local"))
              "Service Unavailable" Sim.half_created
              (ports.mkPort "port-api.k8s.local" []) Sim.half_created
              eq_refl eq_refl eq_refl eq_refl eq_refl eq_refl eq_refl)
    as (Herr & _ & Htr & _ & _ & Hok).
  split; [exact Herr|]. split; [exact Htr|].
  exact (Hok (ports.mkPort "port-api.k8s.local" ["sg-1"]) Sim.converged eq_refl).
Defined.

(** ** The poller: every run *)



Section PollerRuns.

Context {W : Type}.
Variable cloud : OpenstackCloud W.
Variable id : string.



(** What a run of the loop can return, when it starts from a status that is
    not terminal. *)
Lemma loop_result_classified (n : nat) :
  forall b l (s : St W),
    l <> activeStatus -> l <> errorStatus ->
    let res := fst (wait.loop (poll_condition cloud id) n b l s) in
    (snd res = None /\ fst res = activeStatus)
    \/ (snd res = Some (Errorf "loadbalancer has gone into ERROR state")
        /\ fst res = errorStatus)
    \/ ((snd res = Some ErrWaitTimeout
         \/ exists msg, snd res = Some (RemoteError msg))
        /\ fst res <> activeStatus /\ fst res <> errorStatus).
Proof.
  induction n as [|n IH]; intros b l s Hla Hle; cbv zeta.
  - cbn. right. right. split; [now left | split; assumption].
  - rewrite loop_S, poll_condition_run. unfold verdict.
    destruct (outcome cloud id 0 (world s)) as [lb|msg].
    + destruct (String.eqb_spec (loadbalancers.ProvisioningStatus lb) activeStatus)
        as [Ea|Ea].
      * left. cbn. now split.
      * destruct (String.eqb_spec (loadbalancers.ProvisioningStatus lb) errorStatus)
          as [Ee|Ee].
        -- right. left. cbn. now split.
        -- destruct n as [|n].
           ++ right. right. cbn. split; [now left | now split].
           ++ apply IH; assumption.
    + right. right. cbn. split; [right; now exists msg | now split].
Qed.

(** X8: whatever the provider answers, the poller returns no error exactly
    when the status it returns is ACTIVE, and the ERROR-state error exactly
    when that status is ERROR; every other error is the poller's own timeout
    error or the error of a failed fetch, and the timeout error of the wait
    package is never returned as it is. *)
Theorem poller_result_classified (s : St W) :
  let r := waitLoadbalancerActiveProvisioningStatus cloud id s in
  let st := fst (fst r) in
  let err := snd (fst r) in
  let failed := Errorf "loadbalancer has gone into ERROR state" in
  let timed_out :=
    Errorf "loadbalancer failed to go into ACTIVE provisioning status within allotted time" in
  (err = None <-> st = activeStatus)
  /\ (err = Some failed <-> st = errorStatus)
  /\ (err = None \/ err = Some failed \/ err = Some timed_out
      \/ exists msg, err = Some (RemoteError msg))
  /\ err <> Some ErrWaitTimeout.
Proof.
  cbv zeta. rewrite wait_unfold. cbn [fst snd].
  pose proof (loop_result_classified loadbalancerActiveSteps poller_backoff "" s
                ltac:(discriminate) ltac:(discriminate)) as H.
  cbv zeta in H.
  destruct (fst (wait.loop (poll_condition cloud id) loadbalancerActiveSteps
                           poller_backoff "" s)) as [st err].
  cbn [fst snd] in H.
  destruct H as [[-> ->] | [[-> ->] | [[-> | [msg ->]] [Ha He]]]]; cbn [fst snd].
  - repeat split; try discriminate; auto.
  - repeat split; try discriminate; auto.
  - repeat split; try discriminate; try (intros H; now contradiction); auto.
  - repeat split; try discriminate; try (intros H; now contradiction).
    right. right. right. now exists msg.
Qed.

End PollerRuns.

Section PollerStatus.

Context {W : Type}.
Variable cloud : OpenstackCloud W.
Variable id : string.

(** The status carried into attempt [k]: the one the loop started with, or
    that of the answer before. *)
Lemma loop_stops_carried (k : nat) :
  forall n b l (s : St W),
    (k < n)%nat ->
    (forall i, (i < k)%nat -> in_progress (outcome cloud id i (world s)) = true) ->
    in_progress (outcome cloud id k (world s)) = false ->
    fst (wait.loop (poll_condition cloud id) n b l s)
    = stop_result
        match k with
        | O => l
        | S j => status_of l (outcome cloud id j (world s))
        end
        (outcome cloud id k (world s)).
Proof.
  induction k as [|k IH]; intros n b l s Hlt Hpre Hstop.
  - destruct n as [|n]; [lia|].
    rewrite loop_S, poll_condition_run.
    unfold stop_result, verdict in *.
    destruct (outcome cloud id 0 (world s)) as [lb|msg]; [|reflexivity].
    cbn [in_progress] in Hstop.
    destruct (String.eqb (loadbalancers.ProvisioningStatus lb) activeStatus);
      [reflexivity|].
    destruct (String.eqb (loadbalancers.ProvisioningStatus lb) errorStatus);
      [reflexivity | discriminate].
  - destruct n as [|[|n]]; [lia | lia |].
    rewrite loop_S, poll_condition_run.
    rewrite verdict_in_progress by (apply Hpre; lia).
    cbn [world trace].
    rewrite (IH (S n)); cbn [world].
    + change (outcome cloud id k (world_after cloud id 1 (world s)))
        with (outcome cloud id (S k) (world s)).
      f_equal. destruct k as [|j]; [reflexivity|].
      change (outcome cloud id j (world_after cloud id 1 (world s)))
        with (outcome cloud id (S j) (world s)).
      apply status_of_in_progress. apply Hpre. lia.
    + lia.
    + intros i Hi. apply (Hpre (S i)). lia.
    + exact Hstop.
Qed.

(** X10: the status returned with an error is the last one observed. When
    fetch [k+1] fails after [k] answers in progress, the poller returns the
    status of answer [k], or the empty string when the very first fetch
    fails; when all 22 answers are in progress it returns the status of the
    22nd with its timeout error. *)
Theorem poller_status_with_error (s : St W) (k : nat) :
  (k <= loadbalancerActiveSteps)%nat ->
  (forall i, (i < k)%nat -> in_progress (outcome cloud id i (world s)) = true) ->
  let r := waitLoadbalancerActiveProvisioningStatus cloud id s in
  let last :=
    match k with
    | O => ""
    | S j => status_of "" (outcome cloud id j (world s))
    end in
  (forall msg,
      (k < loadbalancerActiveSteps)%nat ->
      outcome cloud id k (world s) = Fail msg ->
      fst r = (last, Some (RemoteError msg)))
  /\ (k = loadbalancerActiveSteps ->
      fst r
      = (last,
         Some (Errorf "loadbalancer failed to go into ACTIVE provisioning status within allotted time"))).
Proof.
  intros Hk Hpre r last. subst r. split.
  - intros msg Hlt Ho. rewrite wait_unfold. cbn [fst].
    rewrite (loop_stops_carried k loadbalancerActiveSteps poller_backoff "" s
               Hlt Hpre) by now rewrite Ho.
    rewrite Ho. reflexivity.
  - intros ->. rewrite (wait_times_out cloud id s Hpre). reflexivity.
Qed.

End PollerStatus.

(** The second fetch fails after a pending answer; the first fetch fails. *)
Lemma poller_status_with_error_witness :
  fst (waitLoadbalancerActiveProvisioningStatus Sim.cloud "lb"
         (Sim.start (Sim.scripted [Ok "PENDING_UPDATE"; Fail "Service Unavailable"])))
  = ("PENDING_UPDATE", Some (RemoteError "Service Unavailable"))
  /\
  fst (waitLoadbalancerActiveProvisioningStatus Sim.cloud "lb"
         (Sim.start (Sim.scripted [Fail "Service Unavailable"])))
  = ("", Some (RemoteError "Service Unavailable")).
Proof.
  split.
  - assert (Hpre : forall i, (i < 1)%nat ->
               in_progress
                 (outcome Sim.cloud "lb" i
                    (world (Sim.start
                              (Sim.scripted [Ok "PENDING_UPDATE";
                                             Fail "Service Unavailable"]))))
               = true).
    { intros i Hi. destruct i as [|i]; [reflexivity | lia]. }
    apply (proj1 (poller_status_with_error Sim.cloud "lb" _ 1
                    ltac:(unfold loadbalancerActiveSteps; lia) Hpre)
                 "Service Unavailable"
                 ltac:(unfold loadbalancerActiveSteps; lia) eq_refl).
  - assert (Hpre : forall i, (i < 0)%nat ->
               in_progress
                 (outcome Sim.cloud "lb" i
                    (world (Sim.start (Sim.scripted [Fail "Service Unavailable"]))))
               = true).
    { intros i Hi. lia. }
    apply (proj1 (poller_status_with_error Sim.cloud "lb" _ 0
                    ltac:(unfold loadbalancerActiveSteps; lia) Hpre)
                 "Service Unavailable"
                 ltac:(unfold loadbalancerActiveSteps; lia) eq_refl).
Defined.

(** ** Reconstruction without a receiver *)

Section NoReceiver.

Context {W : Type}.
Variable cloud : OpenstackCloud W.

(** X13: called without a receiver, the reconstruction of a descriptor
    always looks the security group up, by the name of the load balancer,
    once the subnet is fetched; it returns the descriptor with the group
    found, or the error of the lookup, and has no receiver to write to. *)
Theorem NewLBTaskFromCloud_without_receiver (lifecycle : Lifecycle)
    (lb : loadbalancers.LoadBalancer) (st : St W) (sub : subnets.Subnet) (w1 : W) :
  let vip := loadbalancers.VipSubnetID lb in
  let r := NewLBTaskFromCloud cloud lifecycle lb None st in
  let looked_up :=
    (trace st ++ [EGetSubnet vip;
                  EGetSecurityGroupByName (Some (loadbalancers.Name lb))])%list in
  GetSubnet cloud vip (world st) = (Ok sub, w1) ->
  snd (fst r) = None
  /\ trace (snd r) = looked_up
  /\ (forall sg w2,
         getSecurityGroupByName cloud (sg_lookup_arg lb) w1 = (Ok sg, w2) ->
         exists actual,
           fst (fst r) = Ok actual
           /\ reconstructed lifecycle lb sub sg actual)
  /\ (forall err w2,
         getSecurityGroupByName cloud (sg_lookup_arg lb) w1 = (Fail err, w2) ->
         fst (fst r) = Fail err).
Proof.
  intros vip r looked_up Hsub. subst r looked_up.
  unfold NewLBTaskFromCloud, bind, call, ret. fold vip. rewrite Hsub.
  cbn [world trace sgName]. unfold sg_lookup_arg, PtrTo.
  destruct (getSecurityGroupByName cloud
              {| sgID := None; sgName := Some (loadbalancers.Name lb) |} w1)
    as [[sg|err] w2] eqn:Hlook; cbn [fst snd trace];
    rewrite <- app_assoc; (split; [reflexivity|]); (split; [reflexivity|]);
    split; intros ? ? [=]; subst; try reflexivity.
  eexists. split; [reflexivity|].
  unfold reconstructed. cbn. repeat split; reflexivity.
Qed.

End NoReceiver.

(** Reconstruction of the simulated load balancer without a receiver. *)
Lemma NewLBTaskFromCloud_without_receiver_witness :
  let r := NewLBTaskFromCloud Sim.cloud "Sync" Sim.remote_lb None
             (Sim.start Sim.converged) in
  snd (fst r) = None
  /\ trace (snd r)
     = [EGetSubnet "net-1"; EGetSecurityGroupByName (Some "api.k8s.local")]
  /\ fst (fst r) = Ok Sim.actual.
Proof.
  destruct (NewLBTaskFromCloud_without_receiver Sim.cloud "Sync" Sim.remote_lb
              (Sim.start Sim.converged) (subnets.mkSubnet "net-1" "utility")
              Sim.converged eq_refl)
    as (Hnone & Htr & _ & _).
  split; [exact Hnone|]. split; [exact Htr | reflexivity].
Defined.
